(** * The content-analysis pipeline of tadabbur-api, embedded in Rocq

    The development follows the JavaScript sources:
    - [services/gemma3Service.js], class [Gemma3Service]
      (src/unnamed/part_007, from line 320),
    - [services/aiService.js], class [AIService]
      (src/src/services/aiService.js),
    - [services/queueService.js], class [QueueService]
      (src/unnamed/part_008),
    - [routes/ai.js], the analysis routes and the local fallback
      (src/unnamed/part_011, from line 373).

    JavaScript strings are modelled as UTF-8 byte strings ([string]); every
    character the code inspects (braces, brackets, quotes, line feeds, the
    ASCII section words) is a single byte that never occurs inside a
    multi-byte sequence, so the byte-level operations agree with the
    code-unit-level ones of the source.  Exceptions are explicit: a
    computation that may throw returns a [Result]. *)

From Stdlib Require Import String Ascii List ZArith NArith Bool Lia.
Import ListNotations.

Open Scope string_scope.
Set Warnings "-register-all".

(** ** JavaScript values, strings and exceptions *)

Module JS.

(** *** Exceptions and the [try]/[catch] combinators *)

Record JSError : Type := mkError {
  err_name : string;
  err_status : option Z;
  err_message : string
}.

Definition new_Error (msg : string) : JSError := mkError "Error" None msg.
Definition TypeError (msg : string) : JSError := mkError "TypeError" None msg.
Definition SyntaxError (msg : string) : JSError := mkError "SyntaxError" None msg.

Inductive Result (A : Type) : Type :=
| Normal (a : A)
| Throw (e : JSError).
Arguments Normal {A} a.
Arguments Throw {A} e.

Definition bind {A B} (m : Result A) (k : A -> Result B) : Result B :=
  match m with
  | Normal a => k a
  | Throw e => Throw e
  end.

Definition try_catch {A} (body : Result A) (handler : JSError -> Result A)
  : Result A :=
  match body with
  | Normal a => Normal a
  | Throw e => handler e
  end.

Fixpoint mapM {A B} (f : A -> Result B) (l : list A) : Result (list B) :=
  match l with
  | [] => Normal []
  | x :: r =>
      bind (f x) (fun y => bind (mapM f r) (fun ys => Normal (y :: ys)))
  end.

(** *** Bytes and strings *)

Definition code (c : ascii) : N := N_of_ascii c.
Definition chr (n : N) : ascii := ascii_of_N n.

Definition dq : string := String (chr 34) EmptyString.

(** [qq] writes a JSON text with apostrophes in place of double quotes. *)
Fixpoint qq (s : string) : string :=
  match s with
  | EmptyString => EmptyString
  | String c r => String (if (code c =? 39)%N then chr 34 else c) (qq r)
  end.

Fixpoint starts_with_bytes (p : list N) (s : string) : bool :=
  match p, s with
  | [], _ => true
  | b :: p', String c r => (code c =? b)%N && starts_with_bytes p' r
  | _ :: _, EmptyString => false
  end.

(** The characters matched by [\s] and removed by [trim()]: the ECMAScript
    WhiteSpace and LineTerminator code points, in UTF-8. *)
Definition ws_table : list (list N) :=
  [ [9]; [10]; [11]; [12]; [13]; [32];
    [194; 160];
    [225; 154; 128];
    [226; 128; 128]; [226; 128; 129]; [226; 128; 130]; [226; 128; 131];
    [226; 128; 132]; [226; 128; 133]; [226; 128; 134]; [226; 128; 135];
    [226; 128; 136]; [226; 128; 137]; [226; 128; 138];
    [226; 128; 168]; [226; 128; 169]; [226; 128; 175];
    [226; 129; 159];
    [227; 128; 128];
    [239; 187; 191] ]%N.

Fixpoint first_match (table : list (list N)) (s : string) : nat :=
  match table with
  | [] => 0
  | p :: t => if starts_with_bytes p s then List.length p else first_match t s
  end.

(** Number of bytes of the whitespace character at the head of [s]
    (0 when [s] does not start with one). *)
Definition ws_len (s : string) : nat := first_match ws_table s.
Definition ws_len_rev (s : string) : nat :=
  first_match (List.map (@List.rev N) ws_table) s.

Fixpoint drop_ws (len : string -> nat) (skip : nat) (s : string) : string :=
  match s with
  | EmptyString => EmptyString
  | String c r =>
      match skip with
      | S k => drop_ws len k r
      | O =>
          match len s with
          | O => s
          | S k => drop_ws len k r
          end
      end
  end.

Fixpoint rev_string (acc s : string) : string :=
  match s with
  | EmptyString => acc
  | String c r => rev_string (String c acc) r
  end.

Definition trimStart (s : string) : string := drop_ws ws_len 0 s.
Definition trimEnd (s : string) : string :=
  rev_string "" (drop_ws ws_len_rev 0 (rev_string "" s)).
Definition trim (s : string) : string := trimEnd (trimStart s).

Definition is_empty (s : string) : bool :=
  match s with EmptyString => true | _ => false end.

Definition lower_ascii (c : ascii) : ascii :=
  let n := code c in
  if ((65 <=? n) && (n <=? 90))%N then chr (n + 32) else c.

(** [toLowerCase] on the ASCII letters; the letters it changes outside
    ASCII never produce the words the parser searches for. *)
Fixpoint toLowerCase (s : string) : string :=
  match s with
  | EmptyString => EmptyString
  | String c r => String (lower_ascii c) (toLowerCase r)
  end.

Fixpoint includes (needle s : string) : bool :=
  String.prefix needle s ||
  match s with
  | EmptyString => false
  | String _ r => includes needle r
  end.

Fixpoint drop (n : nat) (s : string) : string :=
  match n, s with
  | O, _ => s
  | S k, String _ r => drop k r
  | S _, EmptyString => EmptyString
  end.

(** [s.split('\n')] *)
Fixpoint split_lines (cur : string) (s : string) : list string :=
  match s with
  | EmptyString => [rev_string "" cur]
  | String c r =>
      if (code c =? 10)%N then rev_string "" cur :: split_lines "" r
      else split_lines (String c cur) r
  end.

Fixpoint count_char (b : N) (s : string) : nat :=
  match s with
  | EmptyString => 0
  | String c r => (if (code c =? b)%N then 1 else 0) + count_char b r
  end.

Fixpoint repeat_string (p : string) (n : nat) : string :=
  match n with
  | O => ""
  | S k => p ++ repeat_string p k
  end.

(** [s.length]: the number of UTF-16 code units of a UTF-8 string. *)
Fixpoint js_length (s : string) : nat :=
  match s with
  | EmptyString => 0
  | String c r =>
      let n := code c in
      (if (n <? 128)%N then 1
       else if (n <? 192)%N then 0
       else if (n <? 240)%N then 1
       else 2) + js_length r
  end.

(** *** Values *)

Inductive JSValue : Type :=
| JUndefined
| JNull
| JBool (b : bool)
| JNum (m e : Z)            (* the decimal number m * 10^e *)
| JStr (s : string)
| JArr (items : list JSValue)
| JObj (members : list (string * JSValue)).

(** ToBoolean.  A number literal is falsy exactly when its mantissa is 0
    (literals so small that they round to 0 as doubles are not told
    apart). *)
Definition truthy (v : JSValue) : bool :=
  match v with
  | JUndefined | JNull => false
  | JBool b => b
  | JNum m _ => negb (m =? 0)%Z
  | JStr s => negb (is_empty s)
  | JArr _ | JObj _ => true
  end.

(** [a || b] *)
Definition or_else (a b : JSValue) : JSValue := if truthy a then a else b.

Definition isArray (v : JSValue) : bool :=
  match v with JArr _ => true | _ => false end.

(** [typeof v === 'object'] *)
Definition typeof_object (v : JSValue) : bool :=
  match v with JNull | JArr _ | JObj _ => true | _ => false end.

(** The last binding of a key wins, as in an object built by
    [JSON.parse]. *)
Fixpoint lookup_last (k : string) (m : list (string * JSValue))
  : option JSValue :=
  match m with
  | [] => None
  | (k', v) :: r =>
      match lookup_last k r with
      | Some w => Some w
      | None => if String.eqb k k' then Some v else None
      end
  end.

(** [v.k] for the property names the pipeline reads; none of them is
    defined on a prototype. *)
Definition get_prop (v : JSValue) (k : string) : Result JSValue :=
  match v with
  | JUndefined =>
      Throw (TypeError ("Cannot read properties of undefined (reading '"
                          ++ k ++ "')"))
  | JNull =>
      Throw (TypeError ("Cannot read properties of null (reading '"
                          ++ k ++ "')"))
  | JObj m =>
      Normal (match lookup_last k m with Some w => w | None => JUndefined end)
  | _ => Normal JUndefined
  end.

(** Comparison of two number values, [None] when one is not a number. *)
Definition num_compare (a b : JSValue) : option comparison :=
  match a, b with
  | JNum m1 e1, JNum m2 e2 =>
      let e := Z.min e1 e2 in
      Some (Z.compare (m1 * 10 ^ (e1 - e)) (m2 * 10 ^ (e2 - e)))
  | _, _ => None
  end.

Definition num_lt (a b : JSValue) : Prop := num_compare a b = Some Lt.
Definition num_le (a b : JSValue) : Prop :=
  num_compare a b = Some Lt \/ num_compare a b = Some Eq.

End JS.

(** ** [JSON.parse]

    The ECMAScript JSON grammar, as a lexer that reads the text byte by
    byte and a pushdown parser over the tokens.  Both are structural
    recursions, so [JSON_parse] is total: [None] stands for the
    [SyntaxError] the built-in throws. *)

Module JSON.
Import JS.

Inductive token : Type :=
| TLBrace | TRBrace | TLBrack | TRBrack | TColon | TComma
| TString (s : string)
| TNumber (m e : Z)
| TTrue | TFalse | TNull.

Inductive numstate : Type :=
| NMinus | NZero | NInt | NDot | NFrac | NE | NESign | NExp.

Record numacc : Type := mkNum {
  n_neg : bool; n_mant : Z; n_frac : Z; n_eneg : bool; n_exp : Z
}.

Inductive lexmode : Type :=
| LIdle
| LStr (acc : string) (hi : option N)
| LEsc (acc : string) (hi : option N)
| LUni (acc : string) (hi : option N) (digits : list N)
| LNum (st : numstate) (a : numacc)
| LLit (rest : list N) (t : token).

Definition is_digit (n : N) : bool := ((48 <=? n) && (n <=? 57))%N.

Definition hex_value (n : N) : option N :=
  if is_digit n then Some (n - 48)%N
  else if ((97 <=? n) && (n <=? 102))%N then Some (n - 87)%N
  else if ((65 <=? n) && (n <=? 70))%N then Some (n - 55)%N
  else None.

(** UTF-8 bytes of a code point, pushed on a reversed accumulator. *)
Definition push_utf8 (cp : N) (acc : string) : string :=
  if (cp <? 128)%N then String (chr cp) acc
  else if (cp <? 2048)%N then
    String (chr (128 + cp mod 64)) (String (chr (192 + cp / 64)) acc)
  else if (cp <? 65536)%N then
    String (chr (128 + cp mod 64))
      (String (chr (128 + (cp / 64) mod 64))
         (String (chr (224 + cp / 4096)) acc))
  else
    String (chr (128 + cp mod 64))
      (String (chr (128 + (cp / 64) mod 64))
         (String (chr (128 + (cp / 4096) mod 64))
            (String (chr (240 + cp / 262144)) acc))).

(** A pending high surrogate that is not followed by a low one is kept as
    a code point of its own. *)
Definition flush (acc : string) (hi : option N) : string :=
  match hi with
  | Some h => push_utf8 h acc
  | None => acc
  end.

Definition is_high (cu : N) : bool := ((55296 <=? cu) && (cu <=? 56319))%N.
Definition is_low (cu : N) : bool := ((56320 <=? cu) && (cu <=? 57343))%N.

Definition push_unit (acc : string) (hi : option N) (cu : N) : lexmode :=
  match hi with
  | Some h =>
      if is_low cu then
        LStr (push_utf8 (65536 + (h - 55296) * 1024 + (cu - 56320)) acc) None
      else if is_high cu then LStr (push_utf8 h acc) (Some cu)
      else LStr (push_utf8 cu (push_utf8 h acc)) None
  | None =>
      if is_high cu then LStr acc (Some cu)
      else LStr (push_utf8 cu acc) None
  end.

Definition units (ds : list N) : N :=
  List.fold_left (fun a d => (a * 16 + d)%N) ds 0%N.

Definition num_token (a : numacc) : token :=
  TNumber (if n_neg a then - n_mant a else n_mant a)
          ((if n_eneg a then - n_exp a else n_exp a) - n_frac a).

Definition num_final (st : numstate) : bool :=
  match st with
  | NZero | NInt | NFrac | NExp => true
  | _ => false
  end.

Definition digit_of (n : N) : Z := Z.of_N (n - 48).

(** One byte read between tokens. *)
Definition idle_step (n : N) : option (lexmode * list token) :=
  if ((n =? 32) || (n =? 9) || (n =? 10) || (n =? 13))%N then Some (LIdle, [])
  else if (n =? 123)%N then Some (LIdle, [TLBrace])
  else if (n =? 125)%N then Some (LIdle, [TRBrace])
  else if (n =? 91)%N then Some (LIdle, [TLBrack])
  else if (n =? 93)%N then Some (LIdle, [TRBrack])
  else if (n =? 58)%N then Some (LIdle, [TColon])
  else if (n =? 44)%N then Some (LIdle, [TComma])
  else if (n =? 34)%N then Some (LStr "" None, [])
  else if (n =? 45)%N then Some (LNum NMinus (mkNum true 0 0 false 0), [])
  else if (n =? 48)%N then Some (LNum NZero (mkNum false 0 0 false 0), [])
  else if is_digit n then
    Some (LNum NInt (mkNum false (digit_of n) 0 false 0), [])
  else if (n =? 116)%N then Some (LLit [114; 117; 101]%N TTrue, [])
  else if (n =? 102)%N then Some (LLit [97; 108; 115; 101]%N TFalse, [])
  else if (n =? 110)%N then Some (LLit [117; 108; 108]%N TNull, [])
  else None.

Definition add_int (a : numacc) (n : N) : numacc :=
  mkNum (n_neg a) (n_mant a * 10 + digit_of n) (n_frac a) (n_eneg a) (n_exp a).
Definition add_frac (a : numacc) (n : N) : numacc :=
  mkNum (n_neg a) (n_mant a * 10 + digit_of n) (n_frac a + 1)
        (n_eneg a) (n_exp a).
Definition add_exp (a : numacc) (n : N) : numacc :=
  mkNum (n_neg a) (n_mant a) (n_frac a) (n_eneg a) (n_exp a * 10 + digit_of n).
Definition set_eneg (a : numacc) : numacc :=
  mkNum (n_neg a) (n_mant a) (n_frac a) true (n_exp a).

Definition is_e (n : N) : bool := ((n =? 101) || (n =? 69))%N.

(** The number automaton: [Some st'] when the byte continues the
    literal. *)
Definition num_step (st : numstate) (a : numacc) (n : N)
  : option (numstate * numacc) :=
  match st with
  | NMinus =>
      if (n =? 48)%N then Some (NZero, a)
      else if is_digit n then Some (NInt, add_int a n) else None
  | NZero =>
      if (n =? 46)%N then Some (NDot, a)
      else if is_e n then Some (NE, a) else None
  | NInt =>
      if is_digit n then Some (NInt, add_int a n)
      else if (n =? 46)%N then Some (NDot, a)
      else if is_e n then Some (NE, a) else None
  | NDot => if is_digit n then Some (NFrac, add_frac a n) else None
  | NFrac =>
      if is_digit n then Some (NFrac, add_frac a n)
      else if is_e n then Some (NE, a) else None
  | NE =>
      if (n =? 43)%N then Some (NESign, a)
      else if (n =? 45)%N then Some (NESign, set_eneg a)
      else if is_digit n then Some (NExp, add_exp a n) else None
  | NESign => if is_digit n then Some (NExp, add_exp a n) else None
  | NExp => if is_digit n then Some (NExp, add_exp a n) else None
  end.

Definition lex_step (mode : lexmode) (c : ascii)
  : option (lexmode * list token) :=
  let n := code c in
  match mode with
  | LIdle => idle_step n
  | LStr acc hi =>
      if (n =? 34)%N then Some (LIdle, [TString (rev_string "" (flush acc hi))])
      else if (n =? 92)%N then Some (LEsc acc hi, [])
      else if (n <? 32)%N then None
      else Some (LStr (String c (flush acc hi)) None, [])
  | LEsc acc hi =>
      let plain (b : N) := Some (LStr (String (chr b) (flush acc hi)) None, []) in
      if ((n =? 34) || (n =? 92) || (n =? 47))%N then plain n
      else if (n =? 98)%N then plain 8%N
      else if (n =? 102)%N then plain 12%N
      else if (n =? 110)%N then plain 10%N
      else if (n =? 114)%N then plain 13%N
      else if (n =? 116)%N then plain 9%N
      else if (n =? 117)%N then Some (LUni acc hi [], [])
      else None
  | LUni acc hi ds =>
      match hex_value n with
      | None => None
      | Some d =>
          let ds' := (ds ++ [d])%list in
          if (List.length ds' =? 4)%nat
          then Some (push_unit acc hi (units ds'), [])
          else Some (LUni acc hi ds', [])
      end
  | LNum st a =>
      match num_step st a n with
      | Some (st', a') => Some (LNum st' a', [])
      | None =>
          if num_final st then
            match idle_step n with
            | Some (mode', ts) => Some (mode', num_token a :: ts)
            | None => None
            end
          else None
      end
  | LLit rest t =>
      match rest with
      | [] => None
      | b :: rest' =>
          if (n =? b)%N then
            match rest' with
            | [] => Some (LIdle, [t])
            | _ => Some (LLit rest' t, [])
            end
          else None
      end
  end.

Fixpoint lex (mode : lexmode) (s : string) : option (list token) :=
  match s with
  | EmptyString =>
      match mode with
      | LIdle => Some []
      | LNum st a => if num_final st then Some [num_token a] else None
      | _ => None
      end
  | String c r =>
      match lex_step mode c with
      | None => None
      | Some (mode', ts) =>
          match lex mode' r with
          | None => None
          | Some rest => Some (ts ++ rest)%list
          end
      end
  end.

(** *** The parser *)

Inductive frame : Type :=
| FArr (rev_items : list JSValue)
| FObj (rev_members : list (string * JSValue)) (pending : option string).

Inductive pstate : Type :=
| PValue        (* a value must follow *)
| PValueOrEnd   (* just after an opening bracket *)
| PKeyOrEnd     (* just after an opening brace *)
| PKey          (* after a comma inside an object *)
| PColon        (* after a member name *)
| PAfter        (* after a value inside an array or object *)
| PDone (v : JSValue).

Definition push_value (v : JSValue) (stack : list frame)
  : option (list frame * pstate) :=
  match stack with
  | [] => Some ([], PDone v)
  | FArr items :: st => Some (FArr (v :: items) :: st, PAfter)
  | FObj mem (Some k) :: st => Some (FObj ((k, v) :: mem) None :: st, PAfter)
  | FObj _ None :: _ => None
  end.

Definition close_array (stack : list frame) : option (list frame * pstate) :=
  match stack with
  | FArr items :: st => push_value (JArr (List.rev items)) st
  | _ => None
  end.

Definition close_object (stack : list frame) : option (list frame * pstate) :=
  match stack with
  | FObj mem None :: st => push_value (JObj (List.rev mem)) st
  | _ => None
  end.

Definition set_key (k : string) (stack : list frame)
  : option (list frame * pstate) :=
  match stack with
  | FObj mem None :: st => Some (FObj mem (Some k) :: st, PColon)
  | _ => None
  end.

Definition start_value (t : token) (stack : list frame)
  : option (list frame * pstate) :=
  match t with
  | TLBrace => Some (FObj [] None :: stack, PKeyOrEnd)
  | TLBrack => Some (FArr [] :: stack, PValueOrEnd)
  | TString s => push_value (JStr s) stack
  | TNumber m e => push_value (JNum m e) stack
  | TTrue => push_value (JBool true) stack
  | TFalse => push_value (JBool false) stack
  | TNull => push_value JNull stack
  | _ => None
  end.

Definition parse_step (stack : list frame) (st : pstate) (t : token)
  : option (list frame * pstate) :=
  match st with
  | PValue => start_value t stack
  | PValueOrEnd =>
      match t with
      | TRBrack => close_array stack
      | _ => start_value t stack
      end
  | PKeyOrEnd =>
      match t with
      | TRBrace => close_object stack
      | TString k => set_key k stack
      | _ => None
      end
  | PKey =>
      match t with
      | TString k => set_key k stack
      | _ => None
      end
  | PColon =>
      match t with
      | TColon => Some (stack, PValue)
      | _ => None
      end
  | PAfter =>
      match t with
      | TComma =>
          match stack with
          | FArr _ :: _ => Some (stack, PValue)
          | FObj _ None :: _ => Some (stack, PKey)
          | _ => None
          end
      | TRBrack => close_array stack
      | TRBrace => close_object stack
      | _ => None
      end
  | PDone _ => None
  end.

Fixpoint parse_tokens (stack : list frame) (st : pstate) (ts : list token)
  : option JSValue :=
  match ts with
  | [] =>
      match st with
      | PDone v => Some v
      | _ => None
      end
  | t :: r =>
      match parse_step stack st t with
      | None => None
      | Some (stack', st') => parse_tokens stack' st' r
      end
  end.

Definition JSON_parse (text : string) : option JSValue :=
  match lex LIdle text with
  | None => None
  | Some ts => parse_tokens [] PValue ts
  end.

(** [JSON.parse(text)] as a computation that may throw. *)
Definition parse (text : string) : Result JSValue :=
  match JSON_parse text with
  | Some v => Normal v
  | None => Throw (SyntaxError "Unexpected token in JSON")
  end.

End JSON.

(** ** The analysis record and the pieces shared by both response parsers *)

Module Analysis.
Import JS.

Record AnalysisRecord : Type := mkRecord {
  summary : JSValue;
  corrections : list JSValue;
  authenticity : JSValue;
  confidence : JSValue;
  source : option string
}.

Definition c_0_8 : JSValue := JNum 8 (-1).
Definition c_0_6 : JSValue := JNum 6 (-1).
Definition c_0_0 : JSValue := JNum 0 (-1).

(** *** The two regular expressions *)

Fixpoint from_first (b : N) (s : string) : option string :=
  match s with
  | EmptyString => None
  | String c r => if (code c =? b)%N then Some s else from_first b r
  end.

Fixpoint upto_last (b : N) (s : string) : option string :=
  match s with
  | EmptyString => None
  | String c r =>
      match upto_last b r with
      | Some p => Some (String c p)
      | None => if (code c =? b)%N then Some (String c "") else None
      end
  end.

(** [s.match(/\{[\s\S]*\}/)]: from the first opening brace to the last
    closing brace after it. *)
Definition greedy_match (s : string) : option string :=
  match from_first 123 s with
  | Some (String c r) =>
      match upto_last 125 r with
      | Some p => Some (String c p)
      | None => None
      end
  | _ => None
  end.

Definition head_is_not (b : N) (s : string) : bool :=
  match s with
  | EmptyString => false
  | String c _ => negb (code c =? b)%N
  end.

(** The lookahead [(?=\n\s*$|\n\s*[^}]|$)] at the text [t] that remains.
    In the second alternative [\s*] may stop at once, and no whitespace
    character is a closing brace, so it holds exactly when the character
    after the line feed is not a closing brace. *)
Definition lookahead (t : string) : bool :=
  match t with
  | EmptyString => true
  | String c r =>
      (code c =? 10)%N && (is_empty (trimStart r) || head_is_not 125 r)
  end.

Fixpoint lazy_body (t : string) : string :=
  if lookahead t then ""
  else match t with
       | EmptyString => ""
       | String c r => String c (lazy_body r)
       end.

(** [s.match(/\{[\s\S]*?(?=\n\s*$|\n\s*[^}]|$)/)]: from the first opening
    brace, the shortest text after which the lookahead holds. *)
Definition partial_match (s : string) : option string :=
  match from_first 123 s with
  | Some (String c r) => Some (String c (lazy_body r))
  | _ => None
  end.

(** *** The structured ("working example") and the simple shapes *)

Definition str (s : string) : JSValue := JStr s.

(** One element of [corrections.map(...)]. *)
Definition map_correction (correction : JSValue) : Result JSValue :=
  if typeof_object correction then
    bind (get_prop correction "field") (fun f =>
    bind (get_prop correction "issue_english") (fun ie =>
    bind (get_prop correction "issue_bangla") (fun ib =>
    bind (get_prop correction "suggestion_english") (fun se =>
    bind (get_prop correction "suggestion_bangla") (fun sb =>
      Normal (JObj [ ("field", or_else f (str "unknown"));
                     ("issue_english", or_else ie (str ""));
                     ("issue_bangla", or_else ib (str ""));
                     ("suggestion_english", or_else se (str ""));
                     ("suggestion_bangla", or_else sb (str "")) ]))))))
  else Normal correction.

Definition structured_record (json : JSValue) : Result AnalysisRecord :=
  bind (get_prop json "summary") (fun s =>
  bind (get_prop s "english") (fun en =>
  bind (get_prop s "bangla") (fun bn =>
  bind (get_prop json "corrections") (fun c =>
  bind (match c with
        | JArr items => mapM map_correction items
        | _ => Normal [or_else c (str "পরামর্শ প্রদান করা হয়নি")]
        end) (fun cs =>
    Normal
      {| summary := JObj [ ("english", or_else en (str "Summary not provided"));
                           ("bangla", or_else bn (str "সারাংশ প্রদান করা হয়নি")) ];
         corrections := cs;
         authenticity :=
           JObj [ ("english", str "Content analysis completed");
                  ("bangla", str "বিষয়বস্তু বিশ্লেষণ সম্পন্ন হয়েছে") ];
         confidence := c_0_8;
         source := None |}))))).

Definition simple_record (json : JSValue) : Result AnalysisRecord :=
  bind (get_prop json "summary") (fun s =>
  bind (get_prop json "corrections") (fun c =>
  bind (get_prop json "authenticity") (fun a =>
  bind (get_prop json "confidence") (fun k =>
    Normal
      {| summary := or_else s (str "সারাংশ প্রদান করা হয়নি");
         corrections :=
           match c with
           | JArr items => items
           | _ => [or_else c (str "পরামর্শ প্রদান করা হয়নি")]
           end;
         authenticity := or_else a (str "সত্যতা মূল্যায়ন প্রদান করা হয়নি");
         confidence := or_else k c_0_8;
         source := None |})))).

(** [json.analysis && json.corrections && json.summary] *)
Definition has_working_format (json : JSValue) : Result bool :=
  bind (get_prop json "analysis") (fun a =>
  bind (get_prop json "corrections") (fun c =>
  bind (get_prop json "summary") (fun s =>
    Normal (truthy a && truthy c && truthy s)))).

(** *** Line-oriented text parsing *)

Inductive section : Type :=
| SNone | SSummary | SCorrections | SAuthenticity.

Fixpoint prefix_ci (p s : string) : option string :=
  match p, s with
  | EmptyString, _ => Some s
  | String a p', String b s' =>
      if Ascii.eqb (lower_ascii a) (lower_ascii b) then prefix_ci p' s'
      else None
  | String _ _, EmptyString => None
  end.

(** [line.replace(/^(w1|n\.\s*w2|w3)\s*/i, '')] *)
Definition strip_header (w1 n w2 w3 line : string) : string :=
  match prefix_ci w1 line with
  | Some rest => trimStart rest
  | None =>
      match
        match prefix_ci n line with
        | Some rest => prefix_ci w2 (trimStart rest)
        | None => None
        end
      with
      | Some rest => trimStart rest
      | None =>
          match prefix_ci w3 line with
          | Some rest => trimStart rest
          | None => line
          end
      end
  end.

Record sections : Type := mkSections {
  t_summary : string;
  t_corrections : string;
  t_authenticity : string;
  currentSection : section
}.

Definition scan_line (st : sections) (line : string) : sections :=
  let trimmedLine := trim line in
  let lowerLine := toLowerCase trimmedLine in
  if includes "summary:" lowerLine || includes "1. summary" lowerLine
     || includes "summary" lowerLine then
    mkSections
      (t_summary st
         ++ trim (strip_header "summary:" "1." "summary" "summary" trimmedLine)
         ++ " ")
      (t_corrections st) (t_authenticity st) SSummary
  else if includes "corrections:" lowerLine
          || includes "2. corrections" lowerLine
          || includes "correction" lowerLine then
    mkSections (t_summary st)
      (t_corrections st
         ++ trim (strip_header "corrections:" "2." "corrections" "correction"
                    trimmedLine)
         ++ " ")
      (t_authenticity st) SCorrections
  else if includes "authenticity:" lowerLine
          || includes "3. authenticity" lowerLine
          || includes "authenticity" lowerLine then
    mkSections (t_summary st) (t_corrections st)
      (t_authenticity st
         ++ trim (strip_header "authenticity:" "3." "authenticity"
                    "authenticity" trimmedLine)
         ++ " ")
      SAuthenticity
  else if negb (is_empty trimmedLine) then
    match currentSection st with
    | SSummary =>
        mkSections (t_summary st ++ trimmedLine ++ " ")
          (t_corrections st) (t_authenticity st) SSummary
    | SCorrections =>
        mkSections (t_summary st) (t_corrections st ++ trimmedLine ++ " ")
          (t_authenticity st) SCorrections
    | SAuthenticity =>
        mkSections (t_summary st) (t_corrections st)
          (t_authenticity st ++ trimmedLine ++ " ") SAuthenticity
    | SNone => st
    end
  else st.

Definition or_default (s d : string) : string :=
  if is_empty s then d else s.

(** The text fallback, with the three default texts of the service. *)
Definition text_record (d_summary d_corrections d_authenticity text : string)
  : AnalysisRecord :=
  let lines :=
    List.filter (fun line => negb (is_empty (trim line)))
                (split_lines "" text) in
  let st := List.fold_left scan_line lines (mkSections "" "" "" SNone) in
  {| summary := str (or_default (trim (t_summary st)) d_summary);
     corrections := [str (or_default (trim (t_corrections st)) d_corrections)];
     authenticity := str (or_default (trim (t_authenticity st)) d_authenticity);
     confidence := c_0_8;
     source := None |}.

End Analysis.

(** ** Content rows and the prompt *)

Module Prompt.
Import JS.

(** The fields of a content object; [None] is a missing (undefined or
    null) field. *)
Record Content : Type := mkContent {
  title : option string;
  purpose : option string;
  arabic_text : option string;
  english_meaning : option string;
  transliteration : option string;
  native_meaning : option string;
  source_reference : option string;
  content : option string;
  meaning : option string
}.

Definition empty_content : Content :=
  mkContent None None None None None None None None None.

(** [field || placeholder] inside the template literal. *)
Definition or_text (field : option string) (placeholder : string) : string :=
  match field with
  | Some s => if is_empty s then placeholder else s
  | None => placeholder
  end.

Fixpoint qq_with (mark : N) (s : string) : string :=
  match s with
  | EmptyString => EmptyString
  | String c r =>
      String (if (code c =? mark)%N then chr 34 else c) (qq_with mark r)
  end.

(** The fixed instructions and sample output that end the template; the
    double quotes of the source are written [~] here. *)
Definition instructions : string := qq_with 126 "

Check the contents for any issues and provide a summary of the content correction and suggestions.
- Do not use md styling only use with plain text.
- Show the output as json format. Each correction will be as a array element.
- Proive bangla and english for the correction and suggestions.
- If ther is no correction need the correction array will be empty . 
- Here is a sample output struture 

{
    ~analysis~: {
      ~title~: ~ জাহান্নাম থেকে মুক্তি~,
      ~purpose~: ~Not specified~,
      ~arabic_text~: ~ اللَّهُمَّ أَجِرْنِى مِ~,
      ~english_meaning~: ~O Allah! Save me from the fire of Hell.~,
      ~transliteration~: ~আল্লাহুম্মা আজিরনি মিনান নার।~,
      ~native_meaning~: ~হে আল্লাহ! আমাকে~,
      ~source_reference~: ~N/A~
    },
    ~corrections~: [
      {
        ~field~: ~title~,
        ~issue_english~: ~Descriptive, not standard for a du'a.~,
        ~issue_bangla~: ~বর্ণনমূলক, একটি দু'য়ার জন্য আদর্শ নয়।~,
        ~suggestion_english~: ~Du'a for Protection from Hellfire~,
        ~suggestion_bangla~: ~জাহান্নাম থেকে সুরক্ষার জন্য দু'আ~
      }
    ],
    ~summary~: {
      ~english~: ~The provided content contains several inaccuracies, primarily due to an incomplete Arabic text. Corrections include completing the Arabic and Bengali text, refining the transliteration, providing a more accurate English meaning, suggesting a better title, and emphasizing the need to specify a purpose and source reference. These changes improve the content's accuracy, clarity, and usefulness.~,
      ~bangla~: ~প্রদত্ত অংশে বেশ কিছু ভুল রয়েছে, যার প্রধান কারণ হল একটি অসম্পূর্ণ আরবি পাঠ। সংশোধনগুলির মধ্যে আরবি এবং বাংলা পাঠ সম্পূর্ণ করা, প্রতিবর্ণীকরণ পরিমার্জন করা, আরও সঠিক ইংরেজি অর্থ প্রদান করা, একটি ভাল শিরোনাম প্রস্তাব করা এবং উদ্দেশ্য ও উৎস উল্লেখ করার প্রয়োজনীয়তার উপর জোর দেওয়া অন্তর্ভুক্ত। এই পরিবর্তনগুলি সামগ্রীর নির্ভুলতা, স্পষ্টতা এবং উপযোগিতা বৃদ্ধি করে।~
    }
  }

output:".

(** [buildPrompt(contentType, content)], the same text in both
    services. *)
Definition buildPrompt (contentType : string) (c : Content) : string :=
  "Content to analyze:
Title: " ++ or_text (title c) "Not specified" ++ "
Purpose: " ++ or_text (purpose c) "Not specified" ++ "
Arabic Text: " ++ or_text (arabic_text c) "Not specified" ++ "
English Meaning: " ++ or_text (english_meaning c) "Not specified" ++ "
Transliteration: " ++ or_text (transliteration c) "Not specified" ++ "
Native Meaning: " ++ or_text (native_meaning c) "Not specified" ++ "
Source Reference: " ++ or_text (source_reference c) "N/A" ++ instructions.

End Prompt.

(** ** Effects: the remote services, the job table and the content tables

    A computation of the pipeline runs in a [World]: the rows of
    [ai_processing_queue], the content rows, and the log of the remote calls
    made so far.  The remote services are an environment [Network] whose
    answer may depend on the calls already made.  Statements sent through
    [pool.query] are taken to succeed. *)

Module Effects.
Import JS Analysis Prompt.

Module Chat.
(** The argument of [client.chat.completions.create]. *)
Record Request : Type := mk {
  model : string;
  messages : list (string * string);   (* role, content *)
  max_tokens : Z;
  temperature : JSValue;
  top_p : JSValue;
  timeout : Z
}.
End Chat.

Module HF.
Record Parameters : Type := mkParameters {
  max_new_tokens : Z;
  temperature : JSValue;
  top_p : JSValue;
  top_k : Z;
  repetition_penalty : JSValue;
  return_full_text : bool;
  do_sample : bool
}.
(** The arguments of [axios.post]. *)
Record Request : Type := mk {
  url : string;
  inputs : string;
  parameters : Parameters;
  headers : list (string * string);
  timeout : Z
}.
End HF.

Module Bull.
Record JobOptions : Type := mkOptions {
  priority : Z;
  attempts : Z;
  backoff_type : string;
  backoff_delay : Z;
  removeOnComplete : Z;
  removeOnFail : Z
}.
Record Job : Type := mkJob {
  name : string;
  data : string * N;        (* contentType, contentId *)
  opts : JobOptions
}.
End Bull.

Inductive Event : Type :=
| EvChat (r : Chat.Request)
| EvPost (r : HF.Request)
| EvBullAdd (j : Bull.Job).

Record Network : Type := mkNetwork {
  (* the message content of the first choice, or the rejection *)
  chat_create : list Event -> Chat.Request -> JSError + string;
  (* response.data, or the rejection *)
  axios_post : list Event -> HF.Request -> JSError + JSValue
}.

Inductive Status : Type := pending | processing | completed | failed.

Record JobRow : Type := mkJobRow {
  content_type : string;
  content_id : N;
  status : Status;
  result : option AnalysisRecord;
  error_message : option string;
  created_at : N;
  processed_at : option N
}.

Record ContentRow : Type := mkContentRow {
  fields : Content;
  ai_summary : option JSValue;
  ai_corrections : option (list JSValue)
}.

Record World : Type := mkWorld {
  jobs : list JobRow;
  contents : list (string * N * ContentRow);   (* table, id, row *)
  clock : N;                                   (* CURRENT_TIMESTAMP *)
  trace : list Event
}.

Definition IO (A : Type) : Type := World -> World * Result A.

Definition ret {A} (a : A) : IO A := fun w => (w, Normal a).
Definition throw {A} (e : JSError) : IO A := fun w => (w, Throw e).
Definition lift {A} (r : Result A) : IO A := fun w => (w, r).

Definition io_bind {A B} (m : IO A) (k : A -> IO B) : IO B :=
  fun w =>
    match m w with
    | (w', Normal a) => k a w'
    | (w', Throw e) => (w', Throw e)
    end.

Definition io_try_catch {A} (body : IO A) (handler : JSError -> IO A) : IO A :=
  fun w =>
    match body w with
    | (w', Normal a) => (w', Normal a)
    | (w', Throw e) => handler e w'
    end.

Notation "x <- m ;; k" := (io_bind m (fun x => k))
  (at level 61, m at next level, right associativity).
Notation "m ;;; k" := (io_bind m (fun _ => k))
  (at level 61, right associativity).

Definition log_event (e : Event) : IO unit :=
  fun w => (mkWorld (jobs w) (contents w) (clock w) (trace w ++ [e])%list,
            Normal tt).

Definition of_sum {A} (r : JSError + A) : Result A :=
  match r with
  | inl e => Throw e
  | inr a => Normal a
  end.

(** *** Statements on [ai_processing_queue] *)

Definition same_key (contentType : string) (contentId : N) (r : JobRow) : bool :=
  String.eqb (content_type r) contentType && N.eqb (content_id r) contentId.

(** [UPDATE ai_processing_queue SET ... WHERE content_id = $ AND
    content_type = $]: every row of the content key is rewritten. *)
Definition rewrite_rows (contentType : string) (contentId : N)
           (set : JobRow -> JobRow) (rows : list JobRow) : list JobRow :=
  List.map (fun r => if same_key contentType contentId r then set r else r)
           rows.

Definition update_jobs (contentType : string) (contentId : N)
           (set : N -> JobRow -> JobRow) : IO unit :=
  fun w =>
    (mkWorld (rewrite_rows contentType contentId (set (clock w)) (jobs w))
             (contents w) (clock w) (trace w),
     Normal tt).

Definition set_processing (now : N) (r : JobRow) : JobRow :=
  mkJobRow (content_type r) (content_id r) processing (result r)
           (error_message r) (created_at r) (processed_at r).

Definition set_completed (analysis : AnalysisRecord) (now : N) (r : JobRow)
  : JobRow :=
  mkJobRow (content_type r) (content_id r) completed (Some analysis)
           (error_message r) (created_at r) (Some now).

Definition set_failed (message : string) (now : N) (r : JobRow) : JobRow :=
  mkJobRow (content_type r) (content_id r) failed (result r)
           (Some message) (created_at r) (Some now).

(** [INSERT INTO ai_processing_queue (content_type, content_id, status)
    VALUES ($1, $2, 'pending') ON CONFLICT DO NOTHING]; the only key of the
    table is its generated id, so the row is always added. *)
Definition insert_pending (contentType : string) (contentId : N) : IO unit :=
  fun w =>
    (mkWorld
       (jobs w ++ [mkJobRow contentType contentId pending None None
                            (clock w) None])%list
       (contents w) (clock w) (trace w),
     Normal tt).

(** *** The content tables *)

Definition select_columns (contentType : string) (c : Content) : Content :=
  if String.eqb contentType "dua" then
    mkContent (title c) (purpose c) (arabic_text c) (english_meaning c)
              (transliteration c) (native_meaning c) (source_reference c)
              None None
  else if String.eqb contentType "answer" then
    mkContent None None None None None None None (content c) None
  else
    mkContent (title c) None None None None None None (content c) None.

Definition table_of (contentType : string) : option string :=
  if String.eqb contentType "dua" then Some "duas"
  else if String.eqb contentType "blog" then Some "blogs"
  else if String.eqb contentType "question" then Some "questions"
  else if String.eqb contentType "answer" then Some "answers"
  else None.

Definition is_row (table : string) (id : N) (e : string * N * ContentRow)
  : bool :=
  String.eqb (fst (fst e)) table && N.eqb (snd (fst e)) id.

(** [getContent(contentType, contentId)]: [None] is [undefined]. *)
Definition getContent (contentType : string) (contentId : N)
  : IO (option Content) :=
  match table_of contentType with
  | None => throw (new_Error "Invalid content type")
  | Some table =>
      fun w =>
        (w, Normal match List.find (is_row table contentId) (contents w) with
                   | Some e => Some (select_columns contentType (fields (snd e)))
                   | None => None
                   end)
  end.

(** [updateContentWithAI(contentType, contentId, analysis)] *)
Definition updateContentWithAI (contentType : string) (contentId : N)
           (analysis : AnalysisRecord) : IO unit :=
  match table_of contentType with
  | None => throw (new_Error "Invalid content type for update")
  | Some table =>
      fun w =>
        (mkWorld (jobs w)
           (List.map
              (fun e =>
                 if is_row table contentId e then
                   (fst e,
                    mkContentRow (fields (snd e))
                      (Some (summary analysis))
                      (if String.eqb contentType "dua"
                       then Some (corrections analysis)
                       else ai_corrections (snd e)))
                 else e)
              (contents w))
           (clock w) (trace w),
         Normal tt)
  end.

End Effects.

(** ** [AIService] (src/services/aiService.js) *)

Module AIService.
Import JS Analysis Prompt Effects.

(** The text carried by the inference response, before [text.match]. *)
Definition extract_text (response : JSValue) : Result JSValue :=
  match response with
  | JArr items =>
      (* response[0]?.generated_text || '' *)
      bind (match List.nth 0 items JUndefined with
            | JUndefined | JNull => Normal JUndefined
            | first => get_prop first "generated_text"
            end) (fun g => Normal (or_else g (str "")))
  | _ =>
      bind (get_prop response "generated_text") (fun g =>
        if truthy g then Normal g
        else match response with
             | JStr s => Normal (JStr s)
             | _ => Normal (str "")
             end)
  end.

Definition as_text (v : JSValue) : Result string :=
  match v with
  | JStr s => Normal s
  | _ => Throw (TypeError "text.match is not a function")
  end.

Definition placeholder : AnalysisRecord :=
  {| summary := str "AI দ্বারা বিশ্লেষিত বিষয়বস্তু - বিষয়বস্তু ইসলামী প্রকৃতির বলে মনে হচ্ছে";
     corrections := [str "বিস্তারিত বিশ্লেষণ পার্স করতে অক্ষম - ম্যানুয়াল পর্যালোচনা সুপারিশ করা হচ্ছে"];
     authenticity := str "বিষয়বস্তু ইসলামী প্রকৃতির বলে মনে হচ্ছে - যাচাই সুপারিশ করা হচ্ছে";
     confidence := c_0_0;
     source := None |}.

Definition text_fallback (text : string) : AnalysisRecord :=
  text_record
    "AI analysis completed - content appears to be Islamic in nature"
    "No specific corrections suggested - content appears authentic"
    "Content appears to be Islamic in nature and authentic"
    text.

(** The body of the inner [try]: decode and normalise. *)
Definition decode (m : string) : Result AnalysisRecord :=
  bind (JSON.parse m) (fun jsonResponse =>
  bind (has_working_format jsonResponse) (fun working =>
    if working then structured_record jsonResponse
    else simple_record jsonResponse)).

Definition parseAIResponse (response : JSValue) : Result AnalysisRecord :=
  try_catch
    (bind (extract_text response) (fun v =>
     bind (as_text v) (fun text =>
     bind (match greedy_match text with
           | Some m =>
               try_catch (bind (decode m) (fun r => Normal (Some r)))
                         (fun jsonError => Normal None)
           | None => Normal None
           end) (fun decoded =>
       match decoded with
       | Some r => Normal r
       | None => Normal (text_fallback text)
       end))))
    (fun error => Normal placeholder).

Section Remote.
Variable net : Network.
(** [process.env.HF_API_URL] and [process.env.HF_TOKEN] *)
Variable HF_API_URL : option string.
Variable HF_TOKEN : string.

Definition apiUrl : string :=
  or_text HF_API_URL
    "https://api-inference.huggingface.co/models/google/gemma-3-27b-it".

Definition request (prompt : string) : HF.Request :=
  HF.mk apiUrl prompt
    (HF.mkParameters 800 (JNum 6 (-1)) (JNum 9 (-1)) 50 (JNum 11 (-1))
                     false true)
    [ ("Authorization", "Bearer " ++ HF_TOKEN);
      ("Content-Type", "application/json") ]
    60000.

(** [await axios.post(...)], giving [response.data]. *)
Definition post (r : HF.Request) : IO JSValue :=
  fun w =>
    let answer := axios_post net (trace w) r in
    match log_event (EvPost r) w with
    | (w', _) => (w', of_sum answer)
    end.

Definition generateAnalysis (contentType : string) (c : Content)
  : IO AnalysisRecord :=
  let prompt := buildPrompt contentType c in
  io_try_catch
    (data <- post (request prompt) ;;
     lift (parseAIResponse data))
    (fun error => throw (new_Error "AI service temporarily unavailable")).
End Remote.

End AIService.

(** ** [Gemma3Service] (src/services/gemma3Service.js) *)

Module Gemma3Service.
Import JS Analysis Prompt Effects.

Definition placeholder : AnalysisRecord :=
  {| summary := str "AI দ্বারা বিশ্লেষণ সম্পন্ন - বিষয়বস্তু ইসলামী প্রকৃতির বলে মনে হচ্ছে";
     corrections := [str "সব তথ্য ঠিক আছে - কোনো সংশোধনের প্রয়োজন নেই"];
     authenticity := str "বিষয়বস্তু ইসলামী প্রকৃতির বলে মনে হচ্ছে - যাচাই সুপারিশ করা হচ্ছে";
     confidence := c_0_0;
     source := None |}.

Definition text_fallback (text : string) : AnalysisRecord :=
  text_record
    "AI দ্বারা বিশ্লেষণ সম্পন্ন - বিষয়বস্তু ইসলামী প্রকৃতির বলে মনে হচ্ছে"
    "সব তথ্য ঠিক আছে - কোনো সংশোধনের প্রয়োজন নেই"
    "বিষয়বস্তু ইসলামী প্রকৃতির এবং সত্যতা বলে মনে হচ্ছে"
    text.

(** The body of the outer [try]. *)
Definition parse_body (response : string) : Result AnalysisRecord :=
  match greedy_match response with
  | Some m =>
      bind (JSON.parse m) (fun jsonResponse =>
      bind (has_working_format jsonResponse) (fun working =>
        if working then structured_record jsonResponse
        else simple_record jsonResponse))
  | None => Normal (text_fallback response)
  end.

Definition cut_marker : string :=
  dq ++ "suggestion_bangla" ++ dq ++ ": " ++ dq ++ "আরও ভাল".
Definition cut_replacement : string :=
  dq ++ "suggestion_bangla" ++ dq ++ ": " ++ dq ++ "আরও ভালো করা যেতে পারে" ++ dq.

(** [s.replace(/"suggestion_bangla": "আরও ভাল[^"]*$/, replacement)]: the
    leftmost marker with no double quote after it, up to the end. *)
Fixpoint replace_cut (s : string) : string :=
  match s with
  | EmptyString => EmptyString
  | String c r =>
      if String.prefix cut_marker s
         && negb (includes dq (drop (String.length cut_marker) s))
      then cut_replacement
      else String c (replace_cut r)
  end.

(** The text handed to the second [JSON.parse]. *)
Definition close_json (partialJson0 : string) : string :=
  let partialJson :=
    if includes cut_marker partialJson0 && negb (includes "}" partialJson0)
    then replace_cut partialJson0 else partialJson0 in
  let openBraces := count_char 123 partialJson in
  let closeBraces := count_char 125 partialJson in
  let openBrackets := count_char 91 partialJson in
  let closeBrackets := count_char 93 partialJson in
  partialJson
    ++ repeat_string "]" (openBrackets - closeBrackets)
    ++ repeat_string "}" (openBraces - closeBraces).

(** The body of the [try] inside the [catch] block: [Some r] when it
    returns [r], [None] when control falls through to the placeholder. *)
Definition repair (response : string) : Result (option AnalysisRecord) :=
  match partial_match response with
  | Some partialJson =>
      bind (JSON.parse (close_json partialJson)) (fun fixedResponse =>
      bind (has_working_format fixedResponse) (fun working =>
        if working then
          bind (structured_record fixedResponse) (fun r => Normal (Some r))
        else Normal None))
  | None => Normal None
  end.

Definition parseAIResponse (response : string) : Result AnalysisRecord :=
  try_catch (parse_body response)
    (fun error =>
       bind (try_catch (repair response) (fun fixError => Normal None))
            (fun fixed =>
               match fixed with
               | Some r => Normal r
               | None => Normal placeholder
               end)).

Definition is_unavailable (error : JSError) : bool :=
  match err_status error with
  | Some st => (st =? 503)%Z
  | None => false
  end
  || includes "503" (err_message error)
  || includes "Service Unavailable" (err_message error).

Section Remote.
Variable net : Network.
Variable HF_API_URL : option string.
Variable HF_TOKEN : string.

Definition request (prompt : string) : Chat.Request :=
  Chat.mk "google/gemma-3-12b-it:featherless-ai"
          [("user", prompt)]
          2000 (JNum 3 (-1)) (JNum 9 (-1)) 45000.

(** [await this.client.chat.completions.create(...)], giving
    [choices[0].message.content]. *)
Definition create (r : Chat.Request) : IO string :=
  fun w =>
    let answer := chat_create net (trace w) r in
    match log_event (EvChat r) w with
    | (w', _) => (w', of_sum answer)
    end.

Definition generateAnalysis (contentType : string) (c : Content)
  : IO AnalysisRecord :=
  let prompt := buildPrompt contentType c in
  io_try_catch
    (response <- create (request prompt) ;;
     lift (parseAIResponse response))
    (fun error =>
       if is_unavailable error then
         AIService.generateAnalysis net HF_API_URL HF_TOKEN contentType c
       else throw (new_Error "AI service temporarily unavailable")).

(** What [await this.generateAnalysisWithQueue(...)] yields in
    [processContent]: [processQueue] hands the outcome of
    [generateAnalysis] for the request to its [resolve] or [reject]
    unchanged; the scheduling itself is the machine of [Module Queue]. *)
Definition generateAnalysisWithQueue (contentType : string) (c : Content)
  : IO AnalysisRecord :=
  generateAnalysis contentType c.

Definition processContent (contentType : string) (contentId : N)
  : IO AnalysisRecord :=
  io_try_catch
    (update_jobs contentType contentId set_processing ;;;
     found <- getContent contentType contentId ;;
     match found with
     | None => throw (new_Error "Content not found")
     | Some c =>
         analysis <- generateAnalysisWithQueue contentType c ;;
         updateContentWithAI contentType contentId analysis ;;;
         update_jobs contentType contentId (set_completed analysis) ;;;
         ret analysis
     end)
    (fun error =>
       update_jobs contentType contentId (set_failed (err_message error)) ;;;
       throw error).
End Remote.

End Gemma3Service.

(** ** The single-flight request queue of [Gemma3Service]

    The event loop runs one callback at a time, so the queue is a machine
    whose steps are the three callbacks that touch it: a call of
    [generateAnalysisWithQueue], the continuation of [processQueue] after its
    [await], and a timer set by [setTimeout].  Times are in milliseconds. *)

Module Queue.
Import JS Prompt.

Record Request : Type := mkRequest {
  contentType : string;
  content : Content;
  caller : nat;            (* stands for the pair resolve/reject *)
  timestamp : nat
}.

Inductive LogEntry : Type :=
| Started (at_time : nat) (r : Request)    (* generateAnalysis is called *)
| Settled (at_time : nat) (r : Request).   (* resolve or reject is called *)

Record State : Type := mkState {
  isProcessing : bool;
  requestQueue : list Request;
  currentRequest : option Request;
  timers : list nat;       (* due times of the pending setTimeout calls *)
  log : list LogEntry
}.

Definition initial : State := mkState false [] None [] [].

(** [processQueue()], up to its [await]. *)
Definition processQueue (now : nat) (q : State) : State :=
  if isProcessing q || (List.length (requestQueue q) =? 0)%nat then q
  else
    match requestQueue q with
    | [] => q
    | request :: rest =>
        mkState true rest (Some request) (timers q)
                (log q ++ [Started now request])
    end.

(** [generateAnalysisWithQueue(contentType, content)] *)
Definition generateAnalysisWithQueue (now : nat) (ct : string) (c : Content)
           (who : nat) (q : State) : State :=
  let request := mkRequest ct c who now in
  processQueue now
    (mkState (isProcessing q) (requestQueue q ++ [request])
             (currentRequest q) (timers q) (log q)).

(** The rest of [processQueue] once [generateAnalysis] has settled: the
    promise of the request is resolved or rejected, then the [finally]
    block runs. *)
Definition settle (now : nat) (q : State) : State :=
  match currentRequest q with
  | None => q
  | Some request =>
      mkState false (requestQueue q) None
              (if (0 <? List.length (requestQueue q))%nat
               then timers q ++ [now + 1000] else timers q)
              (log q ++ [Settled now request])
  end.

(** The callback of the oldest timer, once it is due. *)
Definition timer (now : nat) (q : State) : State :=
  match timers q with
  | due :: rest =>
      if (due <=? now)%nat then
        processQueue now
          (mkState (isProcessing q) (requestQueue q) (currentRequest q)
                   rest (log q))
      else q
  | [] => q
  end.

Inductive Callback : Type :=
| Enqueue (ct : string) (c : Content) (who : nat)
| Settle
| Timer.

Definition step (q : State) (ev : nat * Callback) : State :=
  match snd ev with
  | Enqueue ct c who => generateAnalysisWithQueue (fst ev) ct c who q
  | Settle => settle (fst ev) q
  | Timer => timer (fst ev) q
  end.

Definition run (schedule : list (nat * Callback)) : State :=
  List.fold_left step schedule initial.

(** [clearQueue()], an operator action: the waiting requests are rejected
    and the flags are reset, whether or not a request is running.  The
    runs considered below are those of [step], without it. *)
Definition clearQueue (q : State) : State :=
  mkState false [] None (timers q) (log q).

(** [getQueueStatus()] *)
Definition getQueueStatus (q : State)
  : bool * nat * option (string * nat) :=
  (isProcessing q, List.length (requestQueue q),
   match currentRequest q with
   | Some r => Some (contentType r, timestamp r)
   | None => None
   end).

End Queue.

(** ** [QueueService] (src/services/queueService.js) *)

Module QueueService.
Import JS Analysis Prompt Effects.

Record Service : Type := mkService {
  aiQueue : bool;           (* false: [this.aiQueue] is null *)
  isQueueEnabled : bool
}.

(** The constructor; [redis_ok] tells whether [new Queue(...)] and
    [setupProcessors()] return without throwing. *)
Definition constructor (REDIS_URL : option string) (redis_ok : bool) : Service :=
  let url := or_text REDIS_URL "" in
  let hasRedis :=
    negb (is_empty url) && negb (String.eqb url "redis://localhost:6379") in
  let enabled := hasRedis || String.eqb url "inline" in
  if enabled && hasRedis then
    if redis_ok then mkService true enabled else mkService false false
  else mkService false enabled.

Inductive Handle : Type :=
| Inline (success : bool) (result : AnalysisRecord)
| Queued (job : Bull.Job).

Definition jobOptions (priority : string) : Bull.JobOptions :=
  Bull.mkOptions
    (if String.eqb priority "high" then 1
     else if String.eqb priority "low" then 3 else 2)
    3 "exponential" 2000 10 5.

Section Remote.
Variable net : Network.
Variable HF_API_URL : option string.
Variable HF_TOKEN : string.

Definition addAIAnalysisJob (this : Service) (contentType : string)
           (contentId : N) (priority : string) : IO Handle :=
  if negb (aiQueue this) || negb (isQueueEnabled this) then
    io_try_catch
      (update_jobs contentType contentId set_processing ;;;
       result <- Gemma3Service.processContent net HF_API_URL HF_TOKEN
                   contentType contentId ;;
       update_jobs contentType contentId (set_completed result) ;;;
       ret (Inline true result))
      (fun error =>
         update_jobs contentType contentId
                     (set_failed (err_message error)) ;;;
         throw error)
  else
    let job := Bull.mkJob "analyze-content" (contentType, contentId)
                          (jobOptions priority) in
    log_event (EvBullAdd job) ;;;
    ret (Queued job).
End Remote.

End QueueService.

(** ** The analysis routes (src/routes/ai.js) *)

Module Routes.
Import JS Analysis Prompt Effects.

Definition s_title : string :=
  "Consider making the title more descriptive (at least 5 characters)".
Definition s_arabic_short : string :=
  "Arabic text seems too short. Consider adding more content for better context".
Definition s_meaning_short : string :=
  "Meaning/translation could be more detailed to help users understand better".
Definition s_arabic_required : string := "Arabic text is required for duas".
Definition s_meaning_required : string :=
  "Meaning/translation is important for duas".
Definition s_blog : string :=
  "Blog content should be more substantial (at least 100 characters)".
Definition s_good : string := "Content structure looks good".
Definition s_context : string :=
  "Consider adding more context or examples if applicable".

Definition banglaTranslations : list (string * string) :=
  [ (s_title, "শিরোনামটি আরও বর্ণনামূলক করার কথা বিবেচনা করুন (কমপক্ষে ৫টি অক্ষর)");
    (s_arabic_short, "আরবি পাঠ খুব ছোট মনে হচ্ছে। আরও ভালো প্রসঙ্গের জন্য আরও বিষয়বস্তু যোগ করার কথা বিবেচনা করুন");
    (s_meaning_short, "ব্যবহারকারীদের আরও ভালোভাবে বুঝতে সাহায্য করার জন্য অর্থ/অনুবাদ আরও বিস্তারিত হতে পারে");
    (s_arabic_required, "দুআর জন্য আরবি পাঠ প্রয়োজন");
    (s_meaning_required, "দুআর জন্য অর্থ/অনুবাদ গুরুত্বপূর্ণ");
    (s_blog, "ব্লগ বিষয়বস্তু আরও গুরুত্বপূর্ণ হওয়া উচিত (কমপক্ষে ১০০টি অক্ষর)");
    (s_good, "বিষয়বস্তুর কাঠামো ভালো");
    (s_context, "প্রযোজ্য হলে আরও প্রসঙ্গ বা উদাহরণ যোগ করার কথা বিবেচনা করুন") ].

(** [banglaTranslations[suggestion] || suggestion] *)
Definition translate (suggestion : string) : string :=
  match List.find (fun e => String.eqb (fst e) suggestion) banglaTranslations with
  | Some e => or_text (Some (snd e)) suggestion
  | None => suggestion
  end.

(** [field && field.length < n] *)
Definition shorter_than (field : option string) (n : nat) : bool :=
  match field with
  | Some s => negb (is_empty s) && (js_length s <? n)%nat
  | None => false
  end.

(** [!field] *)
Definition missing (field : option string) : bool :=
  match field with
  | Some s => is_empty s
  | None => true
  end.

Definition when (b : bool) (s : string) : list string :=
  if b then [s] else [].

Definition suggestions_for (contentType : string) (c : Content) : list string :=
  let found :=
    (when (shorter_than (title c) 5) s_title
     ++ when (shorter_than (arabic_text c) 10) s_arabic_short
     ++ when (shorter_than (meaning c) 20) s_meaning_short
     ++ (if String.eqb contentType "dua" then
           when (missing (arabic_text c)) s_arabic_required
           ++ when (missing (meaning c)) s_meaning_required
         else [])
     ++ (if String.eqb contentType "blog" then
           when (missing (content c)
                 || match content c with
                    | Some s => (js_length s <? 100)%nat
                    | None => false
                    end) s_blog
         else []))%list in
  if (List.length found =? 0)%nat then [s_good; s_context] else found.

Definition generateLocalFallbackAnalysis (contentType : string) (c : Content)
  : AnalysisRecord :=
  {| summary :=
       str ("স্থানীয় যাচাই ব্যবহার করে " ++ contentType
            ++ " বিষয়বস্তুর মৌলিক বিশ্লেষণ সম্পন্ন হয়েছে।");
     corrections :=
       List.map (fun suggestion => str (translate suggestion))
                (suggestions_for contentType c);
     authenticity :=
       str "বিষয়বস্তু সঠিকভাবে ফরম্যাট করা হয়েছে। বিস্তারিত ইসলামী সত্যতা যাচাইয়ের জন্য, বাহ্যিক AI পরিষেবা বর্তমানে অনুপলব্ধ।";
     confidence := c_0_6;
     source := Some "local_fallback" |}.

Inductive Body : Type :=
| BError (error : string)
| BMessage (message : string)
| BAnalysis (status : string) (analysis : AnalysisRecord).

Record Response : Type := mkResponse {
  http_status : nat;
  body : Body
}.

Definition valid_type (contentType : string) : bool :=
  List.existsb (String.eqb contentType) ["dua"; "blog"; "question"; "answer"].

(** [POST /analyze/:contentType/:contentId]; [hasAccess] is the answer of
    [checkContentAccess]. *)
Definition analyze (contentType : string) (contentId : N) (hasAccess : bool)
  : IO Response :=
  if negb (valid_type contentType) then
    ret (mkResponse 400 (BError "Invalid content type"))
  else if negb hasAccess then
    ret (mkResponse 403
           (BError "Access denied - you can only analyze your own content"))
  else
    insert_pending contentType contentId ;;;
    ret (mkResponse 200 (BMessage "AI analysis queued successfully")).

Section Remote.
Variable net : Network.
Variable HF_API_URL : option string.
Variable HF_TOKEN : string.

(** [POST /analyze-draft]; [c] is [req.body.content]. *)
Definition analyze_draft (contentType : string) (c : option Content)
  : IO Response :=
  io_try_catch
    (if negb (valid_type contentType) then
       ret (mkResponse 400 (BError "Invalid content type"))
     else
       match c with
       | None =>
           ret (mkResponse 400 (BError "Content is required for analysis"))
       | Some c =>
           if missing (title c) && missing (arabic_text c) then
             ret (mkResponse 400 (BError "Content is required for analysis"))
           else
             analysis <-
               io_try_catch
                 (Gemma3Service.generateAnalysis net HF_API_URL HF_TOKEN
                    contentType c)
                 (fun gemma3Error =>
                    io_try_catch
                      (AIService.generateAnalysis net HF_API_URL HF_TOKEN
                         contentType c)
                      (fun aiError =>
                         ret (generateLocalFallbackAnalysis contentType c))) ;;
             ret (mkResponse 200 (BAnalysis "completed" analysis))
       end)
    (fun error =>
       ret (mkResponse 500
              (BError (or_text (Some (err_message error))
                               "Failed to analyze draft content")))).
End Remote.

End Routes.

(** ** Concrete inputs used by the examples below *)

Module Examples.
Import JS Analysis Prompt Effects.

(** The truncated response of the specification's example: the array of
    corrections and the outer object are left open. *)
Definition truncated_example : string :=
  qq "{'analysis':{'title':'x'},'corrections':[{'field':'title','issue_english':'e'}".

(** A response cut after its last member, with the summary first. *)
Definition truncated_with_summary : string :=
  qq "{'summary':{'english':'s'},'analysis':{'title':'x'},'corrections':[{'field':'title','issue_english':'e'}".

(** A complete response in the shape the prompt asks for. *)
Definition structured_example : string :=
  qq "{'analysis':{'title':'x'},'corrections':[{'field':'title'}],'summary':{'english':'s','bangla':'b'}}".

Definition e503 : JSError :=
  mkError "APIError" (Some 503%Z) "503 Service Unavailable".
Definition etimeout : JSError :=
  mkError "AxiosError" None "timeout of 60000ms exceeded".

(** Both remote services unreachable. *)
Definition net_down : Network :=
  mkNetwork (fun _ _ => inl e503) (fun _ _ => inl etimeout).

(** The first service answers with the given text. *)
Definition net_says (text : string) : Network :=
  mkNetwork (fun _ _ => inr text) (fun _ _ => inl etimeout).

Definition w_empty : World := mkWorld [] [] 0 [].

(** [{title: "", arabic_text: "x"}] *)
Definition draft : Content :=
  mkContent (Some "") None (Some "x") None None None None None None.


Definition done_row : JobRow :=
  mkJobRow "dua" 1 completed None None 0 (Some 1%N).
Definition pending_row : JobRow :=
  mkJobRow "dua" 1 pending None None 0 None.

Definition w_done : World := mkWorld [done_row] [] 5 [].
Definition w_pending : World := mkWorld [pending_row] [] 5 [].

Definition inline_service : QueueService.Service :=
  QueueService.constructor None true.

(** Two requests are enqueued, the first settles after 100 ms, and a third
    request arrives 100 ms later, during the cool-down. *)
Definition early_arrival : list (nat * Queue.Callback) :=
  [ (0, Queue.Enqueue "dua" draft 1);
    (0, Queue.Enqueue "dua" draft 2);
    (100, Queue.Settle);
    (200, Queue.Enqueue "dua" draft 3) ].

End Examples.

(** ** The job loop of [AIService] (src/src/services/aiService.js) *)

Module AIServiceJobs.
Import JS Analysis Prompt Effects.

(** The row given by [SELECT * FROM ai_processing_queue WHERE status =
    'pending' ORDER BY created_at ASC LIMIT 1]: a pending row that no
    pending row precedes.  Rows created at the same time may come in any
    order. *)
Definition oldest_pending (rows : list JobRow) (item : JobRow) : Prop :=
  In item rows /\
  status item = pending /\
  forall r, In r rows -> status r = pending ->
            (created_at item <= created_at r)%N.

(** What the statement returns: the row above, or nothing when no row is
    pending. *)
Definition selected (rows : list JobRow) (answer : option JobRow) : Prop :=
  match answer with
  | Some item => oldest_pending rows item
  | None => forall r, In r rows -> status r <> pending
  end.

Section Remote.
Variable net : Network.
Variable HF_API_URL : option string.
Variable HF_TOKEN : string.

(** [processContent(contentType, contentId)] of [AIService] *)
Definition processContent (contentType : string) (contentId : N)
  : IO AnalysisRecord :=
  io_try_catch
    (update_jobs contentType contentId set_processing ;;;
     found <- getContent contentType contentId ;;
     match found with
     | None => throw (new_Error "Content not found")
     | Some c =>
         analysis <- AIService.generateAnalysis net HF_API_URL HF_TOKEN
                       contentType c ;;
         updateContentWithAI contentType contentId analysis ;;;
         update_jobs contentType contentId (set_completed analysis) ;;;
         ret analysis
     end)
    (fun error =>
       update_jobs contentType contentId (set_failed (err_message error)) ;;;
       throw error).

(** [processQueue()]: [isProcessing] is the flag on entry and [answer] what
    the statement above returns; the flag is false again when the call
    ends. *)
Definition processQueue (isProcessing : bool) (answer : option JobRow)
  : IO unit :=
  if isProcessing then ret tt
  else
    io_try_catch
      (match answer with
       | Some item =>
           processContent (content_type item) (content_id item) ;;;
           ret tt
       | None => ret tt
       end)
      (fun error => ret tt).
End Remote.

End AIServiceJobs.

(** ** [QueueService.getQueueStats] (src/unnamed/part_008) *)

Module QueueStats.
Import JS.

Record Stats : Type := mkStats {
  queued : nat;
  processing : nat;
  completed : nat;
  failed : nat;
  total : nat;
  pending : option nat        (* the key added by a row of status 'pending' *)
}.

Definition zero : Stats := mkStats 0 0 0 0 0 None.

(** [stats[row.status] = count; stats.total += count] *)
Definition add_row (stats : Stats) (row : Effects.Status * nat) : Stats :=
  let count := snd row in
  match fst row with
  | Effects.pending =>
      mkStats (queued stats) (processing stats) (completed stats)
              (failed stats) (total stats + count) (Some count)
  | Effects.processing =>
      mkStats (queued stats) count (completed stats)
              (failed stats) (total stats + count) (pending stats)
  | Effects.completed =>
      mkStats (queued stats) (processing stats) count
              (failed stats) (total stats + count) (pending stats)
  | Effects.failed =>
      mkStats (queued stats) (processing stats) (completed stats)
              count (total stats + count) (pending stats)
  end.

(** [getQueueStats()]: [rows] is the answer to the grouping statement, and
    [bull] the lengths of the waiting, active, completed and failed lists
    of the broker queue. *)
Definition getQueueStats (this : QueueService.Service)
           (rows : list (Effects.Status * nat)) (bull : nat * nat * nat * nat)
  : Stats :=
  if negb (QueueService.aiQueue this) || negb (QueueService.isQueueEnabled this)
  then List.fold_left add_row rows zero
  else
    match bull with
    | (waiting, active, done, lost) =>
        mkStats waiting active done lost (waiting + active + done + lost) None
    end.

Definition status_eqb (a b : Effects.Status) : bool :=
  match a, b with
  | Effects.pending, Effects.pending
  | Effects.processing, Effects.processing
  | Effects.completed, Effects.completed
  | Effects.failed, Effects.failed => true
  | _, _ => false
  end.

Definition count_status (st : Effects.Status) (jobs : list Effects.JobRow) : nat :=
  List.length (List.filter (fun r => status_eqb (Effects.status r) st) jobs).

(** An answer to [SELECT status, COUNT ... FROM ai_processing_queue GROUP BY
    status]: one row per status that occurs, in any order. *)
Definition grouped (jobs : list Effects.JobRow)
           (rows : list (Effects.Status * nat)) : Prop :=
  NoDup (List.map fst rows) /\
  forall st n, In (st, n) rows <-> n = count_status st jobs /\ 0 < n.

End QueueStats.

(** ** The polling route (src/unnamed/part_011, [GET /analysis/...]) *)

Module Poll.
Import JS Analysis Effects.

Inductive Body : Type :=
| PError (error : string)
| PCompleted (analysis : AnalysisRecord)   (* status: 'completed' *)
| PFailed (error : option string)          (* status: 'failed' *)
| PStatus (status : Status) (message : string).

(** A row given by [SELECT status, result, error_message ... WHERE
    content_type = $1 AND content_id = $2 ORDER BY created_at DESC LIMIT 1]. *)
Definition latest (rows : list JobRow) (contentType : string) (contentId : N)
           (r : JobRow) : Prop :=
  In r rows /\
  same_key contentType contentId r = true /\
  forall r', In r' rows -> same_key contentType contentId r' = true ->
             (created_at r' <= created_at r)%N.

(** The handler; [hasAccess] is the answer of [checkContentAccess] and
    [answer] the row the statement returns, if any.  The [result] column is
    the text [JSON.stringify] gave for the record and the handler reads it
    back with [JSON.parse]; the column is kept as the record itself. *)
Definition get_analysis (contentType : string) (hasAccess : bool)
           (answer : option JobRow) : nat * Body :=
  if negb (Routes.valid_type contentType) then
    (400, PError "Invalid content type")
  else if negb hasAccess then (403, PError "Access denied")
  else
    match answer with
    | None => (404, PError "AI analysis not found")
    | Some analysis =>
        match status analysis, result analysis with
        | completed, Some r => (200, PCompleted r)
        | failed, _ => (200, PFailed (error_message analysis))
        | st, _ => (200, PStatus st "Analysis in progress")
        end
    end.

End Poll.

(** ** The notions used to state the properties *)

Module Statements.
Import JS Analysis Prompt Effects Queue.

(** A record has a correction entry whose [field] is ["title"]. *)
Definition has_field_title (r : AnalysisRecord) : Prop :=
  exists c, In c (corrections r) /\ get_prop c "field" = Normal (JStr "title").

Definition logged (w : World) (evs : list Event) : World :=
  mkWorld (jobs w) (contents w) (clock w) (trace w ++ evs)%list.

(** The decode of the text found between the braces fails, or there are
    no braces at all. *)
Definition unparseable (s : string) : Prop :=
  match greedy_match s with
  | Some m => JSON.JSON_parse m = None
  | None => True
  end.



Definition terminal (s : Status) : Prop := s = completed \/ s = failed.

(** A row update that keeps the key of the row. *)
Definition keeps_key (set : JobRow -> JobRow) : Prop :=
  forall r, content_type (set r) = content_type r /\
            content_id (set r) = content_id r.

(** What a run leaves in a row of the processed key. *)
Definition run_outcome (now : N) (res : Result AnalysisRecord)
  : JobRow -> JobRow :=
  match res with
  | Normal a => fun r => set_completed a now (set_processing now r)
  | Throw e => fun r => set_failed (err_message e) now (set_processing now r)
  end.

Definition inline (this : QueueService.Service) : bool :=
  negb (QueueService.aiQueue this) || negb (QueueService.isQueueEnabled this).

(** The log never starts a request while another one is running. *)
Fixpoint well_nested (busy : bool) (l : list LogEntry) : bool :=
  match l with
  | [] => true
  | Started _ _ :: r => negb busy && well_nested true r
  | Settled _ _ :: r => busy && well_nested false r
  end.

Fixpoint end_busy (busy : bool) (l : list LogEntry) : bool :=
  match l with
  | [] => busy
  | Started _ _ :: r => end_busy true r
  | Settled _ _ :: r => end_busy false r
  end.

Definition started (l : list LogEntry) : list Request :=
  List.flat_map (fun e => match e with
                          | Started _ r => [r]
                          | Settled _ _ => []
                          end) l.

Definition submitted (schedule : list (nat * Callback)) : list Request :=
  List.flat_map (fun ev => match snd ev with
                           | Enqueue ct c who => [mkRequest ct c who (fst ev)]
                           | _ => []
                           end) schedule.

Record invariant (q : State) : Prop := mkInvariant {
  inv_nested : well_nested false (log q) = true;
  inv_busy : end_busy false (log q) = isProcessing q;
  inv_current :
    isProcessing q = match currentRequest q with
                     | Some _ => true
                     | None => false
                     end
}.

Definition order (q : State) : list Request :=
  (started (log q) ++ requestQueue q)%list.

Definition unreachable (net : Network) : Prop :=
  (forall tr r, exists e, chat_create net tr r = inl e) /\
  (forall tr r, exists e, axios_post net tr r = inl e).

End Statements.

(** ** Further notions and inputs, for the properties of the last part *)

Module MoreExamples.
Import JS Analysis Prompt Effects.

(** The first service times out; the secondary one would answer. *)
Definition net_timeout : Network :=
  mkNetwork (fun _ _ => inl Examples.etimeout) (fun _ _ => inr (JStr "ok")).

(** Both services answer, the first with a complete response. *)
Definition net_up : Network :=
  mkNetwork (fun _ _ => inr Examples.structured_example)
            (fun _ _ => inr (JStr Examples.structured_example)).

Definition a_dua : Content :=
  mkContent (Some "Morning dua") (Some "p") (Some "x") None None None
            (Some "Quran 1:1") None None.

Definition an_answer : Content :=
  mkContent None None None None None None None (Some "The answer text") None.

(** One pending job for dua 1, whose row exists, and an answer 7. *)
Definition w_ready : World :=
  mkWorld [Examples.pending_row]
          [ ("duas", 1%N, mkContentRow a_dua None None);
            ("answers", 7%N, mkContentRow an_answer None None) ]
          5 [].

(** Two requests, the first settled after 100 ms. *)
Definition one_settled : list (nat * Queue.Callback) :=
  [ (0, Queue.Enqueue "dua" Examples.draft 1);
    (0, Queue.Enqueue "dua" Examples.draft 2);
    (100, Queue.Settle) ].

(** A response wrapped in a code fence. *)
Definition fenced_prefix : string := "Here is the analysis: ".
Definition fenced_body : string :=
  qq "'analysis':{'title':'x'},'corrections':[],'summary':{'english':'s'}".
Definition fenced_suffix : string := " I hope this helps.".

End MoreExamples.

Module MoreStatements.
Import JS Analysis Prompt Effects Queue Statements.

(** A waiting request is not stranded: an idle queue that holds requests
    has a timer pending. *)
Definition awake (q : State) : Prop :=
  isProcessing q = false -> requestQueue q <> [] -> timers q <> [].

(** Every pending timer was set 1000 ms after a logged completion. *)
Definition timers_set (q : State) : Prop :=
  forall due, In due (timers q) ->
              exists t r, In (Settled t r) (log q) /\ due = t + 1000.

Definition unavailable_error : JSError :=
  new_Error "AI service temporarily unavailable".


(** [REDIS_URL] names a broker: it is set, not empty, and not the local
    default. *)
Definition names_broker (REDIS_URL : option string) : bool :=
  match REDIS_URL with
  | Some u => negb (is_empty u) && negb (String.eqb u "redis://localhost:6379")
  | None => false
  end.


(** The value a status has in the statistics. *)
Definition value (s : QueueStats.Stats) (st : Status) : nat :=
  match st with
  | Effects.pending => match QueueStats.pending s with Some n => n | None => 0 end
  | Effects.processing => QueueStats.processing s
  | Effects.completed => QueueStats.completed s
  | Effects.failed => QueueStats.failed s
  end.

Definition weight (s : QueueStats.Stats) : nat :=
  value s Effects.pending + value s Effects.processing
  + value s Effects.completed + value s Effects.failed.

(** The bottom frame of the parser's stack is an object. *)
Fixpoint bottom_obj (stack : list JSON.frame) : bool :=
  match stack with
  | [] => false
  | f :: st =>
      match st with
      | [] => match f with JSON.FObj _ _ => true | JSON.FArr _ => false end
      | _ :: _ => bottom_obj st
      end
  end.

(** The parser is inside a text that began with an opening brace, or has
    finished it. *)
Definition object_state (stack : list JSON.frame) (st : JSON.pstate) : Prop :=
  match st with
  | JSON.PDone v => stack = [] /\ exists members, v = JObj members
  | _ => bottom_obj stack = true
  end.

(** No byte [b] in [s]. *)
Definition free_of (b : N) (s : string) : Prop := count_char b s = 0.

End MoreStatements.

(** ** A run of [processContent] when its surroundings fail

    The statements of [Module Effects] always succeed, and
    [Gemma3Service.generateAnalysisWithQueue] is taken for a request that
    is run.  Here both can fail: the database may reject any statement that
    [processContent] sends, with an error of its own, and [clearQueue] may
    reject the request while it waits in [requestQueue]. *)

Module Faults.
Import JS Analysis Prompt Effects.

(** The statements [processContent] sends with [pool.query], in the order
    of the source: the three UPDATEs of [ai_processing_queue], the SELECT of
    [getContent] and the UPDATE of [updateContentWithAI]. *)
Inductive Statement : Type :=
| MarkProcessing
| SelectContent
| UpdateContent
| MarkCompleted
| MarkFailed.

Record Faults : Type := mkFaults {
  (* the rejection of [pool.query], if the statement is rejected *)
  rejects : Statement -> World -> option JSError;
  (* [clearQueue] runs while the request waits in [requestQueue] *)
  cleared : bool
}.

Definition no_faults : Faults := mkFaults (fun _ _ => None) false.

(** [await pool.query(...)]: a rejected statement changes nothing and is
    thrown to the caller. *)
Definition query {A} (f : Faults) (s : Statement) (run : IO A) : IO A :=
  fun w =>
    match rejects f s w with
    | Some e => (w, Throw e)
    | None => run w
    end.

Section Remote.
Variable net : Network.
Variable HF_API_URL : option string.
Variable HF_TOKEN : string.
Variable f : Faults.

(** [getContent]: the [switch] throws before any statement is sent. *)
Definition getContent (contentType : string) (contentId : N)
  : IO (option Content) :=
  match table_of contentType with
  | None => throw (new_Error "Invalid content type")
  | Some _ => query f SelectContent (Effects.getContent contentType contentId)
  end.

(** [updateContentWithAI], likewise. *)
Definition updateContentWithAI (contentType : string) (contentId : N)
           (analysis : AnalysisRecord) : IO unit :=
  match table_of contentType with
  | None => throw (new_Error "Invalid content type for update")
  | Some _ =>
      query f UpdateContent
            (Effects.updateContentWithAI contentType contentId analysis)
  end.

(** [await this.generateAnalysisWithQueue(...)]: the promise of the request
    is settled by [processQueue] with the outcome of [generateAnalysis], or
    rejected by [clearQueue] with [new Error('Queue cleared')] while the
    request is still in [requestQueue], in which case it is never run. *)
Definition generateAnalysisWithQueue (contentType : string) (c : Content)
  : IO AnalysisRecord :=
  if cleared f then throw (new_Error "Queue cleared")
  else Gemma3Service.generateAnalysis net HF_API_URL HF_TOKEN contentType c.

Definition processContent (contentType : string) (contentId : N)
  : IO AnalysisRecord :=
  io_try_catch
    (query f MarkProcessing
           (update_jobs contentType contentId set_processing) ;;;
     found <- getContent contentType contentId ;;
     match found with
     | None => throw (new_Error "Content not found")
     | Some c =>
         analysis <- generateAnalysisWithQueue contentType c ;;
         updateContentWithAI contentType contentId analysis ;;;
         query f MarkCompleted
               (update_jobs contentType contentId (set_completed analysis)) ;;;
         ret analysis
     end)
    (fun error =>
       query f MarkFailed
             (update_jobs contentType contentId
                          (set_failed (err_message error))) ;;;
       throw error).
End Remote.

(** The error is one that the database gave for a statement. *)
Definition rejection (f : Faults) (e : JSError) : Prop :=
  exists s w, rejects f s w = Some e.

(** The database refuses the array of corrections of the write-back. *)
Definition json_rejected : JSError :=
  mkError "error" None "invalid input syntax for type json".

Definition write_back_rejected : Faults :=
  mkFaults (fun s _ => match s with
                       | UpdateContent => Some json_rejected
                       | _ => None
                       end)
           false.

Definition queue_cleared : Faults := mkFaults (fun _ _ => None) true.

End Faults.

(** ** The response parsers *)

Module ParserProps.
Import JS Analysis Statements.

Lemma extract_text_string (s : string) :
  AIService.extract_text (JStr s) = Normal (JStr s).
Proof. reflexivity. Qed.

Lemma gemma3_parse_returns (s : string) :
  exists r, Gemma3Service.parseAIResponse s = Normal r.
Proof.
  unfold Gemma3Service.parseAIResponse.
  destruct (Gemma3Service.parse_body s) as [r | e]; cbn [try_catch].
  - now exists r.
  - destruct (Gemma3Service.repair s) as [[r | ] | e']; cbn [try_catch bind];
      eauto.
Qed.

Lemma aiservice_parse_returns (response : JSValue) :
  exists r, AIService.parseAIResponse response = Normal r.
Proof.
  unfold AIService.parseAIResponse.
  destruct (AIService.extract_text response) as [v | e]; cbn [bind try_catch];
    [ | eauto ].
  destruct (AIService.as_text v) as [text | e]; cbn [bind try_catch];
    [ | eauto ].
  destruct (greedy_match text) as [m | ]; cbn [bind try_catch]; [ | eauto ].
  destruct (AIService.decode m) as [r | e]; cbn [bind try_catch]; eauto.
Qed.

(** C1.  Both response parsers are total on strings: whatever the text,
    [parseAIResponse] returns a record (with its summary, corrections,
    authenticity and confidence) and does not throw. *)
Theorem parseAIResponse_total (s : string) :
  (exists r, Gemma3Service.parseAIResponse s = Normal r) /\
  (exists r, AIService.parseAIResponse (JStr s) = Normal r).
Proof.
  split; [ apply gemma3_parse_returns | apply aiservice_parse_returns ].
Qed.

Lemma mapM_In {A B} (f : A -> Result B) (l : list A) (l' : list B) (x : A) :
  mapM f l = Normal l' -> In x l ->
  exists y, f x = Normal y /\ In y l'.
Proof.
  revert l'; induction l as [ | a l IH]; intros l' Hm Hin; [ contradiction | ].
  cbn [mapM] in Hm.
  destruct (f a) as [b | e] eqn:Hfa; cbn [bind] in Hm; [ | discriminate ].
  destruct (mapM f l) as [bs | e] eqn:Hl; cbn [bind] in Hm; [ | discriminate ].
  injection Hm as <-.
  destruct Hin as [-> | Hin].
  - exists b; split; [ assumption | now left ].
  - destruct (IH bs eq_refl Hin) as [y [Hy Hin']].
    exists y; split; [ assumption | now right ].
Qed.

Lemma map_correction_title (c c' : JSValue) :
  get_prop c "field" = Normal (JStr "title") ->
  map_correction c = Normal c' ->
  get_prop c' "field" = Normal (JStr "title").
Proof.
  intros Hf Hm.
  destruct c as [ | | b | m e | s | items | members];
    cbn in Hf; try discriminate.
  cbn [map_correction typeof_object get_prop bind] in Hm.
  injection Hf as Hf; rewrite Hf in Hm.
  injection Hm as <-.
  reflexivity.
Qed.

Lemma structured_keeps_title (v : JSValue) (r : AnalysisRecord)
      (items : list JSValue) (c : JSValue) :
  structured_record v = Normal r ->
  get_prop v "corrections" = Normal (JArr items) ->
  In c items ->
  get_prop c "field" = Normal (JStr "title") ->
  has_field_title r.
Proof.
  intros Hs Hc Hin Hf.
  unfold structured_record in Hs.
  destruct (get_prop v "summary") as [sm | ]; cbn [bind] in Hs; [ | discriminate ].
  destruct (get_prop sm "english") as [en | ]; cbn [bind] in Hs; [ | discriminate ].
  destruct (get_prop sm "bangla") as [bn | ]; cbn [bind] in Hs; [ | discriminate ].
  rewrite Hc in Hs; cbn [bind] in Hs.
  destruct (mapM map_correction items) as [cs | ] eqn:Hm; cbn [bind] in Hs;
    [ | discriminate ].
  injection Hs as <-.
  destruct (mapM_In _ _ _ _ Hm Hin) as [c' [Hc' Hin']].
  exists c'; split; [ exact Hin' | ].
  now apply (map_correction_title c).
Qed.

Lemma structured_confidence (v : JSValue) (r : AnalysisRecord) :
  structured_record v = Normal r -> confidence r = c_0_8.
Proof.
  unfold structured_record.
  destruct (get_prop v "summary") as [sm | ]; cbn [bind]; [ | discriminate ].
  destruct (get_prop sm "english") as [en | ]; cbn [bind]; [ | discriminate ].
  destruct (get_prop sm "bangla") as [bn | ]; cbn [bind]; [ | discriminate ].
  destruct (get_prop v "corrections") as [c | ]; cbn [bind]; [ | discriminate ].
  match goal with
  | |- context [bind ?m _] => destruct m; cbn [bind]; [ | discriminate ]
  end.
  now intros [= <-].
Qed.

Lemma parse_body_fails (response m : string) :
  greedy_match response = Some m ->
  JSON.JSON_parse m = None ->
  exists e, Gemma3Service.parse_body response = Throw e.
Proof.
  intros Hg Hp. unfold Gemma3Service.parse_body, JSON.parse.
  rewrite Hg, Hp. cbn [bind]. eauto.
Qed.

(** C2, as the code has it.  When the first decode fails, the Gemma3
    parser closes the brackets and then the braces that the lazy match
    leaves open and decodes once more.  If the repaired object has truthy
    [analysis], [corrections] and [summary], the structured record built
    from it is returned with confidence 0.8, and a correction entry whose
    field is "title" is kept; if one of the three is missing, the
    placeholder record is returned. *)
Theorem truncation_repair
        (response m p : string) (v : JSValue) (r : AnalysisRecord) :
  greedy_match response = Some m ->
  JSON.JSON_parse m = None ->
  partial_match response = Some p ->
  JSON.JSON_parse (Gemma3Service.close_json p) = Some v ->
  (has_working_format v = Normal true ->
   structured_record v = Normal r ->
   Gemma3Service.parseAIResponse response = Normal r /\
   confidence r = c_0_8 /\
   (forall items c,
       get_prop v "corrections" = Normal (JArr items) ->
       In c items ->
       get_prop c "field" = Normal (JStr "title") ->
       has_field_title r)) /\
  (has_working_format v = Normal false ->
   Gemma3Service.parseAIResponse response = Normal Gemma3Service.placeholder).
Proof.
  intros Hg Hp Hpm Hfix.
  destruct (parse_body_fails _ _ Hg Hp) as [e He].
  unfold Gemma3Service.parseAIResponse, Gemma3Service.repair, JSON.parse.
  rewrite He, Hpm, Hfix. cbn [try_catch bind].
  split.
  - intros Hw Hs. rewrite Hw, Hs. cbn [try_catch bind].
    split; [ reflexivity | ].
    split; [ now apply (structured_confidence v) | ].
    intros items c. now apply structured_keeps_title.
  - intros Hw. rewrite Hw. reflexivity.
Qed.

Lemma truncation_repair_witness :
  exists r,
    Gemma3Service.parseAIResponse Examples.truncated_with_summary = Normal r /\
    has_field_title r.
Proof.
  pose (v := match JSON.JSON_parse
                     (Gemma3Service.close_json Examples.truncated_with_summary)
             with Some v => v | None => JNull end).
  pose (r := match structured_record v with
             | Normal r => r
             | Throw _ => Gemma3Service.placeholder
             end).
  destruct (truncation_repair Examples.truncated_with_summary
              Examples.truncated_with_summary
              Examples.truncated_with_summary v r)
    as [Hok _]; try (vm_compute; reflexivity).
  destruct Hok as [Hr [_ Ht]]; try (vm_compute; reflexivity).
  exists r. split; [ exact Hr | ].
  apply (Ht [JObj [("field", JStr "title"); ("issue_english", JStr "e")]]
            (JObj [("field", JStr "title"); ("issue_english", JStr "e")])).
  - vm_compute; reflexivity.
  - now left.
  - reflexivity.
Defined.

(** On the truncated example of the specification (no summary member),
    the Gemma3 parser returns no record with the "title" entry. *)
Lemma truncated_example_not_recovered :
  ~ (exists r,
        Gemma3Service.parseAIResponse Examples.truncated_example = Normal r /\
        has_field_title r).
Proof.
  intros [r [Hr [c [Hin Hf]]]].
  vm_compute in Hr. injection Hr as <-.
  cbn [corrections Gemma3Service.placeholder In] in Hin.
  destruct Hin as [<- | []]. discriminate Hf.
Qed.

Lemma truncated_example_placeholder :
  Gemma3Service.parseAIResponse Examples.truncated_example
  = Normal Gemma3Service.placeholder.
Proof. vm_compute; reflexivity. Qed.

Lemma truncated_example_aiservice :
  AIService.parseAIResponse (JStr Examples.truncated_example)
  = Normal (AIService.text_fallback Examples.truncated_example).
Proof. vm_compute; reflexivity. Qed.

End ParserProps.

(** ** The tiered model client *)

Module ClientProps.
Import JS Analysis Prompt Effects Statements.

Section Remote.
Variable net : Network.
Variable HF_API_URL : option string.
Variable HF_TOKEN : string.

Local Abbreviation primary :=
  (Gemma3Service.generateAnalysis net HF_API_URL HF_TOKEN).
Local Abbreviation secondary :=
  (AIService.generateAnalysis net HF_API_URL HF_TOKEN).
Local Abbreviation chat_request ct c :=
  (Gemma3Service.request (buildPrompt ct c)).
Local Abbreviation hf_request ct c :=
  (AIService.request HF_API_URL HF_TOKEN (buildPrompt ct c)).

(** The secondary service makes one POST and touches nothing else. *)
Lemma secondary_world (ct : string) (c : Content) (w : World) :
  fst (secondary ct c w) = logged w [EvPost (hf_request ct c)].
Proof.
  unfold AIService.generateAnalysis, io_try_catch,
    io_bind, AIService.post, log_event, lift, throw, logged.
  destruct (axios_post net (trace w) _) as [e | data]; cbn [of_sum fst].
  - reflexivity.
  - destruct (AIService.parseAIResponse data); reflexivity.
Qed.

Lemma primary_success (ct : string) (c : Content) (w : World) (s : string) :
  chat_create net (trace w) (chat_request ct c) = inr s ->
  primary ct c w
  = (logged w [EvChat (chat_request ct c)],
     Gemma3Service.parseAIResponse s).
Proof.
  intros H.
  unfold Gemma3Service.generateAnalysis,
    io_try_catch, io_bind, Gemma3Service.create, log_event, lift, logged in *.
  rewrite H; cbn [of_sum].
  destruct (ParserProps.gemma3_parse_returns s) as [r ->]. reflexivity.
Qed.

Lemma primary_failure (ct : string) (c : Content) (w : World) (e : JSError) :
  chat_create net (trace w) (chat_request ct c) = inl e ->
  primary ct c w
  = if Gemma3Service.is_unavailable e
    then secondary ct c (logged w [EvChat (chat_request ct c)])
    else (logged w [EvChat (chat_request ct c)],
          Throw (new_Error "AI service temporarily unavailable")).
Proof.
  intros H.
  unfold Gemma3Service.generateAnalysis,
    io_try_catch, io_bind, Gemma3Service.create, log_event, lift, throw,
    logged in *.
  rewrite H; cbn [of_sum].
  destruct (Gemma3Service.is_unavailable e); reflexivity.
Qed.

(** The service tried first only adds to the log of remote calls. *)
Lemma primary_world (ct : string) (c : Content) (w : World) :
  exists evs, fst (primary ct c w) = logged w evs.
Proof.
  destruct (chat_create net (trace w) (chat_request ct c)) as [e | s] eqn:H.
  - rewrite (primary_failure ct c w e H).
    destruct (Gemma3Service.is_unavailable e).
    + rewrite secondary_world. unfold logged; cbn [jobs contents clock trace].
      rewrite <- List.app_assoc. eexists; reflexivity.
    + eexists; reflexivity.
  - rewrite (primary_success ct c w s H). eexists; reflexivity.
Qed.

(** C3.  When the call of the service tried first is rejected with a
    503-class error, [generateAnalysis] continues as the secondary
    service's [generateAnalysis]; the calls it makes are the one rejected
    call followed by exactly one call of the secondary service. *)
Theorem tier_escalation
        (ct : string) (c : Content) (w : World) (e : JSError) :
  chat_create net (trace w) (chat_request ct c) = inl e ->
  Gemma3Service.is_unavailable e = true ->
  primary ct c w = secondary ct c (logged w [EvChat (chat_request ct c)]) /\
  trace (fst (primary ct c w))
  = (trace w ++ [EvChat (chat_request ct c); EvPost (hf_request ct c)])%list.
Proof.
  intros H Hu.
  rewrite (primary_failure ct c w e H), Hu.
  split; [ reflexivity | ].
  rewrite secondary_world. cbn [logged trace].
  now rewrite <- List.app_assoc.
Qed.

Lemma text_record_confidence (d1 d2 d3 text : string) :
  confidence (text_record d1 d2 d3 text) = c_0_8.
Proof. reflexivity. Qed.

Lemma unparseable_confidence (s : string) (r : AnalysisRecord) :
  unparseable s ->
  Gemma3Service.parseAIResponse s = Normal r ->
  confidence r = c_0_8 \/ confidence r = c_0_0.
Proof.
  unfold unparseable, Gemma3Service.parseAIResponse,
    Gemma3Service.parse_body, JSON.parse.
  destruct (greedy_match s) as [m | ].
  - intros ->. cbn [bind try_catch].
    unfold Gemma3Service.repair.
    destruct (partial_match s) as [p | ]; cbn [bind try_catch].
    + destruct (JSON.parse _) as [v | ]; cbn [bind try_catch].
      * destruct (has_working_format v) as [[ | ] | ]; cbn [bind try_catch].
        -- destruct (structured_record v) as [r' | ] eqn:Hs;
             cbn [bind try_catch]; intros [= <-].
           ++ left. now apply (ParserProps.structured_confidence v).
           ++ now right.
        -- intros [= <-]. now right.
        -- intros [= <-]. now right.
      * intros [= <-]. now right.
    + intros [= <-]. now right.
  - intros _. cbn [try_catch]. intros [= <-]. now left.
Qed.

(** C4, as the code has it.  When the service tried first answers with a
    text, [generateAnalysis] returns what the response parser makes of it
    and calls no other service; if the text cannot be decoded, the
    confidence of the record is 0.8 (text fallback, or repaired JSON) or
    0.0 (placeholder), hence at most the 0.8 of a structured parse. *)
Theorem no_escalation_on_parse_failure
        (ct : string) (c : Content) (w : World) (s : string) :
  chat_create net (trace w) (chat_request ct c) = inr s ->
  exists r,
    primary ct c w = (logged w [EvChat (chat_request ct c)], Normal r) /\
    Gemma3Service.parseAIResponse s = Normal r /\
    (unparseable s ->
     (confidence r = c_0_8 \/ confidence r = c_0_0) /\
     num_le (confidence r) c_0_8).
Proof.
  intros H.
  destruct (ParserProps.gemma3_parse_returns s) as [r Hr].
  exists r. rewrite (primary_success ct c w s H), Hr.
  split; [ reflexivity | split; [ reflexivity | ] ].
  intros Hu.
  destruct (unparseable_confidence s r Hu Hr) as [Hc | Hc]; rewrite Hc.
  - split; [ now left | right; reflexivity ].
  - split; [ now right | left; reflexivity ].
Qed.

(** C10, as the code has it.  The call made first, by
    [Gemma3Service.generateAnalysis], asks for 2000 tokens at temperature
    0.3 and top_p 0.9 with a 45 s timeout; the secondary call, by
    [AIService.generateAnalysis], asks for 800 new tokens at temperature
    0.6, top_p 0.9, top_k 50 and repetition penalty 1.1 with a 60 s
    timeout. *)
Theorem tier_parameters (ct : string) (c : Content) (w : World) :
  (exists r rest,
      trace (fst (primary ct c w)) = (trace w ++ EvChat r :: rest)%list /\
      Chat.max_tokens r = 2000%Z /\
      Chat.temperature r = JNum 3 (-1) /\
      Chat.top_p r = JNum 9 (-1) /\
      Chat.timeout r = 45000%Z) /\
  (exists r,
      trace (fst (secondary ct c w)) = (trace w ++ [EvPost r])%list /\
      HF.max_new_tokens (HF.parameters r) = 800%Z /\
      HF.temperature (HF.parameters r) = JNum 6 (-1) /\
      HF.top_p (HF.parameters r) = JNum 9 (-1) /\
      HF.top_k (HF.parameters r) = 50%Z /\
      HF.repetition_penalty (HF.parameters r) = JNum 11 (-1) /\
      HF.timeout r = 60000%Z).
Proof.
  split.
  - exists (chat_request ct c).
    destruct (chat_create net (trace w) (chat_request ct c)) as [e | s] eqn:H.
    + rewrite (primary_failure ct c w e H).
      destruct (Gemma3Service.is_unavailable e).
      * exists [EvPost (hf_request ct c)].
        rewrite secondary_world. cbn [logged trace].
        rewrite <- List.app_assoc. repeat split; reflexivity.
      * exists []. repeat split; reflexivity.
    + rewrite (primary_success ct c w s H).
      exists []. repeat split; reflexivity.
  - exists (hf_request ct c). rewrite secondary_world.
    repeat split; reflexivity.
Qed.
End Remote.

Lemma tier_escalation_witness :
  trace (fst (Gemma3Service.generateAnalysis Examples.net_down None ""
                "dua" Examples.draft Examples.w_empty))
  = [ EvChat (Gemma3Service.request (buildPrompt "dua" Examples.draft));
      EvPost (AIService.request None "" (buildPrompt "dua" Examples.draft)) ].
Proof.
  apply (tier_escalation Examples.net_down None "" "dua" Examples.draft
                         Examples.w_empty Examples.e503).
  - reflexivity.
  - vm_compute; reflexivity.
Defined.

Lemma no_escalation_on_parse_failure_witness :
  exists r,
    Gemma3Service.generateAnalysis (Examples.net_says "hello") None ""
      "dua" Examples.draft Examples.w_empty
    = (logged Examples.w_empty
         [EvChat (Gemma3Service.request (buildPrompt "dua" Examples.draft))],
       Normal r) /\
    Gemma3Service.parseAIResponse "hello" = Normal r /\
    (unparseable "hello" ->
     (confidence r = c_0_8 \/ confidence r = c_0_0) /\
     num_le (confidence r) c_0_8).
Proof.
  apply (no_escalation_on_parse_failure (Examples.net_says "hello") None ""
           "dua" Examples.draft Examples.w_empty "hello").
  reflexivity.
Defined.

(** A reply without any JSON is not decodable, and yet its record has the
    confidence of a structured parse. *)
Lemma plain_text_keeps_confidence :
  exists r r_ok,
    snd (Gemma3Service.generateAnalysis (Examples.net_says "hello") None ""
           "dua" Examples.draft Examples.w_empty) = Normal r /\
    Gemma3Service.parseAIResponse Examples.structured_example = Normal r_ok /\
    unparseable "hello" /\
    ~ num_lt (confidence r) (confidence r_ok).
Proof.
  eexists; eexists.
  split; [ vm_compute; reflexivity | ].
  split; [ vm_compute; reflexivity | ].
  split; [ exact I | ].
  vm_compute. discriminate.
Qed.

(** The call made first does not use the 800-token, 0.6, 60 s settings. *)
Lemma first_call_parameters :
  exists r rest,
    trace (fst (Routes.analyze_draft Examples.net_down None "" "dua"
                  (Some Examples.draft) Examples.w_empty))
    = EvChat r :: rest /\
    Chat.max_tokens r = 2000%Z /\ Chat.max_tokens r <> 800%Z /\
    Chat.temperature r = JNum 3 (-1) /\ Chat.temperature r <> JNum 6 (-1) /\
    Chat.timeout r = 45000%Z /\ Chat.timeout r <> 60000%Z.
Proof.
  eexists; eexists.
  split; [ vm_compute; reflexivity | ].
  cbn. repeat split; discriminate.
Qed.

End ClientProps.

(** ** The prompt *)

Module PromptProps.
Import JS Prompt Statements.




Lemma app_assoc (a b c : string) : (a ++ b) ++ c = a ++ b ++ c.
Proof. induction a as [ | ch a IH]; cbn; [ | rewrite IH ]; reflexivity. Qed.







End PromptProps.

(** ** The job table *)

Module JobProps.
Import JS Analysis Prompt Effects Statements.

Lemma rewrite_rows_twice (ct : string) (id : N) (f g : JobRow -> JobRow)
      (rows : list JobRow) :
  keeps_key g ->
  rewrite_rows ct id f (rewrite_rows ct id g rows)
  = rewrite_rows ct id (fun r => f (g r)) rows.
Proof.
  intros Hg. unfold rewrite_rows. rewrite List.map_map.
  apply List.map_ext. intros r.
  destruct (same_key ct id r) eqn:Hk; [ | now rewrite Hk ].
  unfold same_key in *. destruct (Hg r) as [-> ->]. now rewrite Hk.
Qed.

Lemma keeps_key_processing (now : N) : keeps_key (set_processing now).
Proof. intros r; split; reflexivity. Qed.

Lemma keeps_key_completed (a : AnalysisRecord) (now : N) :
  keeps_key (set_completed a now).
Proof. intros r; split; reflexivity. Qed.

Lemma keeps_key_failed (m : string) (now : N) : keeps_key (set_failed m now).
Proof. intros r; split; reflexivity. Qed.

Lemma keeps_key_compose (f g : JobRow -> JobRow) :
  keeps_key f -> keeps_key g -> keeps_key (fun r => f (g r)).
Proof.
  intros Hf Hg r. destruct (Hf (g r)) as [-> ->]. apply Hg.
Qed.

Lemma run_outcome_terminal (now : N) (res : Result AnalysisRecord) (r : JobRow) :
  terminal (status (run_outcome now res r)).
Proof. destruct res; [ left | right ]; reflexivity. Qed.

Lemma run_outcome_keeps_key (now : N) (res : Result AnalysisRecord) :
  keeps_key (run_outcome now res).
Proof. destruct res; intros r; split; reflexivity. Qed.

Section Remote.
Variable net : Network.
Variable HF_API_URL : option string.
Variable HF_TOKEN : string.

Local Abbreviation processContent :=
  (Gemma3Service.processContent net HF_API_URL HF_TOKEN).
Local Abbreviation addAIAnalysisJob :=
  (QueueService.addAIAnalysisJob net HF_API_URL HF_TOKEN).

(** A run of [processContent] rewrites the rows of its key, and only
    those, according to its own outcome. *)
Lemma processContent_rows (ct : string) (id : N) (w : World) :
  jobs (fst (processContent ct id w))
  = rewrite_rows ct id
      (run_outcome (clock w) (snd (processContent ct id w))) (jobs w) /\
  clock (fst (processContent ct id w)) = clock w.
Proof.
  unfold Gemma3Service.processContent, io_try_catch, io_bind, ret, throw,
    update_jobs, getContent, Gemma3Service.generateAnalysisWithQueue,
    updateContentWithAI.
  destruct (table_of ct) as [table | ] eqn:Ht.
  - destruct (List.find _ _) as [row | ].
    + match goal with
      | |- context [Gemma3Service.generateAnalysis ?n ?u ?t ?ct ?c ?w1] =>
          destruct (ClientProps.primary_world n u t ct c w1) as [evs Hw];
          destruct (Gemma3Service.generateAnalysis n u t ct c w1)
            as [w2 [a | e]]
      end; cbn [fst] in Hw; subst w2;
        cbn [fst snd jobs clock logged run_outcome];
        (split; [ | reflexivity ]);
        now rewrite rewrite_rows_twice by apply keeps_key_processing.
    + cbn [fst snd jobs clock run_outcome].
      split; [ | reflexivity ].
      now rewrite rewrite_rows_twice by apply keeps_key_processing.
  - unfold throw. cbn [fst snd jobs clock run_outcome].
    split; [ | reflexivity ].
    now rewrite rewrite_rows_twice by apply keeps_key_processing.
Qed.

(** The inline branch of [addAIAnalysisJob], in terms of the run of
    [processContent] it contains. *)
Lemma addAIAnalysisJob_inline
      (this : QueueService.Service) (ct : string) (id : N) (prio : string)
      (w w' : World) (res : Result AnalysisRecord) :
  inline this = true ->
  processContent ct id (fst (update_jobs ct id set_processing w)) = (w', res) ->
  addAIAnalysisJob this ct id prio w
  = match res with
    | Normal result =>
        (fst (update_jobs ct id (set_completed result) w'),
         Normal (QueueService.Inline true result))
    | Throw e =>
        (fst (update_jobs ct id (set_failed (err_message e)) w'), Throw e)
    end.
Proof.
  unfold inline. intros Hi Hp.
  unfold QueueService.addAIAnalysisJob. rewrite Hi.
  unfold io_try_catch, io_bind.
  set (w1 := fst (update_jobs ct id set_processing w)) in *.
  assert (Hu : update_jobs ct id set_processing w = (w1, Normal tt))
    by reflexivity.
  rewrite Hu. cbv beta iota. rewrite Hp.
  destruct res; reflexivity.
Qed.

(** C5, as the code has it.  In inline mode a failure of the run is
    caught, every job row of the content key is set to 'failed' with the
    message of the caught error, and the error is thrown again: the
    caller of the dispatcher receives the exception, not a handle. *)
Theorem inline_failure_recorded_and_rethrown
        (this : QueueService.Service) (ct : string) (id : N)
        (prio : string) (w w' : World) (e : JSError) :
  inline this = true ->
  processContent ct id (fst (update_jobs ct id set_processing w))
  = (w', Throw e) ->
  exists w'',
    addAIAnalysisJob this ct id prio w = (w'', Throw e) /\
    jobs w''
    = rewrite_rows ct id (set_failed (err_message e) (clock w')) (jobs w') /\
    (forall r, In r (jobs w'') -> same_key ct id r = true ->
               status r = failed /\
               error_message r = Some (err_message e)).
Proof.
  intros Hi Hp.
  rewrite (addAIAnalysisJob_inline this ct id prio w w' _ Hi Hp).
  eexists. split; [ reflexivity | ]. split; [ reflexivity | ].
  cbn [fst update_jobs jobs]. unfold rewrite_rows.
  intros r Hin Hk. apply List.in_map_iff in Hin.
  destruct Hin as [r0 [<- _]].
  destruct (same_key ct id r0) eqn:Hk0.
  - split; reflexivity.
  - congruence.
Qed.

Lemma rewrite_rows_id (ct : string) (id : N) (rows : list JobRow) :
  rewrite_rows ct id (fun r => r) rows = rows.
Proof.
  unfold rewrite_rows. rewrite <- (List.map_id rows) at 2.
  apply List.map_ext. intros r. now destruct (same_key ct id r).
Qed.

(** C6, as the code has it.  A resubmission adds a pending row and
    changes no existing row.  A processing run, by [processContent] or by
    the dispatcher, rewrites the rows of the submitted key and no other
    row; run inline, it leaves every row of that key 'completed' or
    'failed', whatever the status of the row was before. *)
Theorem job_rows_after_operations (ct : string) (id : N) (w : World) :
  (forall access,
      exists added,
        jobs (fst (Routes.analyze ct id access w)) = (jobs w ++ added)%list /\
        Forall (fun r => status r = pending) added) /\
  (exists set,
      jobs (fst (processContent ct id w)) = rewrite_rows ct id set (jobs w) /\
      keeps_key set /\
      forall r, terminal (status (set r))) /\
  (forall this prio,
      exists set,
        jobs (fst (addAIAnalysisJob this ct id prio w))
        = rewrite_rows ct id set (jobs w) /\
        keeps_key set /\
        (inline this = true -> forall r, terminal (status (set r)))).
Proof.
  split; [ | split ].
  - intros access. unfold Routes.analyze.
    destruct (negb (Routes.valid_type ct)).
    + exists []. cbn. now rewrite List.app_nil_r.
    + destruct (negb access).
      * exists []. cbn. now rewrite List.app_nil_r.
      * eexists. cbn. split; [ reflexivity | ].
        constructor; [ reflexivity | constructor ].
  - destruct (processContent_rows ct id w) as [Hrows _].
    eexists. split; [ exact Hrows | ].
    split; [ apply run_outcome_keeps_key | apply run_outcome_terminal ].
  - intros this prio.
    destruct (inline this) eqn:Hi.
    + destruct (processContent ct id (fst (update_jobs ct id set_processing w)))
        as [w' res] eqn:Hp.
      rewrite (addAIAnalysisJob_inline this ct id prio w w' res Hi Hp).
      destruct (processContent_rows ct id
                  (fst (update_jobs ct id set_processing w)))
        as [Hrows Hclock].
      rewrite Hp in Hrows, Hclock. cbn [fst snd] in Hrows, Hclock.
      cbn [update_jobs fst jobs clock] in Hrows, Hclock.
      rewrite rewrite_rows_twice in Hrows by apply keeps_key_processing.
      assert (Hkeep : keeps_key
                        (fun r => run_outcome (clock w) res
                                    (set_processing (clock w) r)))
        by (apply keeps_key_compose;
            [ apply run_outcome_keeps_key | apply keeps_key_processing ]).
      destruct res as [result | e]; cbn [update_jobs fst jobs];
        rewrite Hrows, (rewrite_rows_twice _ _ _ _ _ Hkeep);
        (eexists; split; [ reflexivity | ]; split;
         [ intros r; split; reflexivity
         | intros _ r; first [ now left | now right ] ]).
    + exists (fun r => r).
      unfold inline in Hi. unfold QueueService.addAIAnalysisJob.
      rewrite Hi. cbn. rewrite rewrite_rows_id.
      split; [ reflexivity | ].
      split; [ intros r; split; reflexivity | discriminate ].
Qed.
End Remote.

Lemma inline_failure_recorded_and_rethrown_witness :
  exists w'',
    QueueService.addAIAnalysisJob Examples.net_down None ""
      Examples.inline_service "dua" 1 "normal" Examples.w_pending
    = (w'', Throw (new_Error "Content not found")) /\
    (forall r, In r (jobs w'') -> same_key "dua" 1 r = true ->
               status r = failed /\
               error_message r = Some "Content not found").
Proof.
  destruct (inline_failure_recorded_and_rethrown Examples.net_down None ""
              Examples.inline_service "dua" 1 "normal" Examples.w_pending
              (fst (Gemma3Service.processContent Examples.net_down None ""
                      "dua" 1
                      (fst (update_jobs "dua" 1 set_processing
                                        Examples.w_pending))))
              (new_Error "Content not found"))
    as [w'' [Hrun [_ Hrows]]].
  - reflexivity.
  - vm_compute; reflexivity.
  - exists w''. split; [ exact Hrun | exact Hrows ].
Defined.

(** The job row exists and the dispatcher runs inline, yet the caller gets
    the exception. *)
Lemma inline_failure_escapes :
  In Examples.pending_row (jobs Examples.w_pending) /\
  exists w e,
    QueueService.addAIAnalysisJob Examples.net_down None ""
      Examples.inline_service "dua" 1 "normal" Examples.w_pending
    = (w, Throw e).
Proof.
  split; [ now left | ].
  eexists; eexists. vm_compute; reflexivity.
Qed.

Lemma job_rows_after_operations_witness :
  exists set,
    jobs (fst (QueueService.addAIAnalysisJob Examples.net_down None ""
                 Examples.inline_service "dua" 1 "normal" Examples.w_done))
    = rewrite_rows "dua" 1 set (jobs Examples.w_done) /\
    forall r, terminal (status (set r)).
Proof.
  destruct (job_rows_after_operations Examples.net_down None "" "dua" 1
              Examples.w_done) as [_ [_ Hdispatch]].
  destruct (Hdispatch Examples.inline_service "normal")
    as [set [Hrows [_ Hterm]]].
  exists set. split; [ exact Hrows | apply Hterm; reflexivity ].
Defined.

(** A completed row is rewritten when its content is processed again. *)
Lemma completed_row_overwritten :
  exists r',
    status Examples.done_row = completed /\
    jobs Examples.w_done = [Examples.done_row] /\
    jobs (fst (Gemma3Service.processContent Examples.net_down None ""
                 "dua" 1 Examples.w_done)) = [r'] /\
    status r' = failed.
Proof.
  eexists. split; [ reflexivity | ]. split; [ reflexivity | ].
  split; [ vm_compute; reflexivity | reflexivity ].
Qed.

End JobProps.

(** ** The single-flight queue *)

Module QueueProps.
Import JS Prompt Queue Statements.

Lemma well_nested_snoc (busy : bool) (l : list LogEntry) (e : LogEntry) :
  well_nested busy (l ++ [e])
  = well_nested busy l
    && match e with
       | Started _ _ => negb (end_busy busy l)
       | Settled _ _ => end_busy busy l
       end.
Proof.
  revert busy; induction l as [ | x l IH]; intros busy; cbn.
  - destruct e; cbn; now rewrite Bool.andb_true_r.
  - destruct x; rewrite IH, Bool.andb_assoc; reflexivity.
Qed.

Lemma end_busy_snoc (busy : bool) (l : list LogEntry) (e : LogEntry) :
  end_busy busy (l ++ [e])
  = match e with Started _ _ => true | Settled _ _ => false end.
Proof.
  revert busy; induction l as [ | x l IH]; intros busy; cbn.
  - now destruct e.
  - destruct x; apply IH.
Qed.

Lemma invariant_initial : invariant initial.
Proof. split; reflexivity. Qed.

Lemma invariant_processQueue (now : nat) (q : State) :
  invariant q -> invariant (processQueue now q).
Proof.
  intros Hq. unfold processQueue.
  destruct (isProcessing q) eqn:Hp; cbn [orb]; [ exact Hq | ].
  destruct (requestQueue q) as [ | r rest]; cbn; [ exact Hq | ].
  destruct Hq as [Hn Hb Hc].
  split; cbn.
  - now rewrite well_nested_snoc, Hn, Hb, Hp.
  - now rewrite end_busy_snoc.
  - reflexivity.
Qed.

Lemma invariant_step (q : State) (ev : nat * Callback) :
  invariant q -> invariant (step q ev).
Proof.
  intros Hq. destruct ev as [now [ct c who | | ]]; cbn [step fst snd].
  - apply invariant_processQueue. destruct Hq as [Hn Hb Hc]. now split.
  - unfold settle.
    destruct (currentRequest q) as [r | ] eqn:Hr; [ | exact Hq ].
    destruct Hq as [Hn Hb Hc]. rewrite Hr in Hc.
    split; cbn.
    + now rewrite well_nested_snoc, Hn, Hb, Hc.
    + now rewrite end_busy_snoc.
    + reflexivity.
  - unfold timer. destruct (timers q) as [ | due rest]; [ exact Hq | ].
    destruct (due <=? now)%nat; [ | exact Hq ].
    apply invariant_processQueue. destruct Hq as [Hn Hb Hc]. now split.
Qed.

Lemma invariant_fold (schedule : list (nat * Callback)) (q : State) :
  invariant q -> invariant (List.fold_left step schedule q).
Proof.
  revert q; induction schedule as [ | ev rest IH]; intros q Hq; cbn.
  - exact Hq.
  - apply IH, invariant_step, Hq.
Qed.

(** X1.  Single flight: whatever the callbacks and their times, a request
    is started only when none is running. *)
Lemma single_flight (schedule : list (nat * Callback)) :
  well_nested false (log (run schedule)) = true.
Proof. apply (invariant_fold schedule initial invariant_initial). Qed.

Lemma started_snoc (l : list LogEntry) (e : LogEntry) :
  started (l ++ [e])
  = (started l ++ match e with Started _ r => [r] | Settled _ _ => [] end)%list.
Proof.
  unfold started. rewrite List.flat_map_app. cbn.
  now rewrite List.app_nil_r.
Qed.

Lemma order_processQueue (now : nat) (q : State) :
  order (processQueue now q) = order q.
Proof.
  unfold processQueue.
  destruct (isProcessing q || _); [ reflexivity | ].
  destruct (requestQueue q) as [ | r rest] eqn:Hq; [ reflexivity | ].
  unfold order. cbn [log requestQueue]. rewrite started_snoc, Hq.
  now rewrite <- List.app_assoc.
Qed.

Lemma order_step (q : State) (ev : nat * Callback) :
  order (step q ev) = (order q ++ submitted [ev])%list.
Proof.
  destruct ev as [now [ct c who | | ]]; cbn [step fst snd submitted List.flat_map].
  - unfold generateAnalysisWithQueue. rewrite order_processQueue.
    unfold order; cbn [log requestQueue].
    now rewrite List.app_nil_r, List.app_assoc.
  - rewrite List.app_nil_r. unfold settle, order.
    destruct (currentRequest q); [ | reflexivity ].
    cbn [log requestQueue]. rewrite started_snoc.
    now rewrite List.app_nil_r.
  - rewrite List.app_nil_r. unfold timer.
    destruct (timers q) as [ | due rest]; [ reflexivity | ].
    destruct (due <=? now)%nat; [ | reflexivity ].
    now rewrite order_processQueue.
Qed.

Lemma order_fold (schedule : list (nat * Callback)) (q : State) :
  order (List.fold_left step schedule q) = (order q ++ submitted schedule)%list.
Proof.
  revert q; induction schedule as [ | ev rest IH]; intros q.
  - cbn. now rewrite List.app_nil_r.
  - cbn [List.fold_left]. rewrite IH, order_step.
    rewrite <- List.app_assoc. f_equal.
    unfold submitted. cbn [List.flat_map]. now rewrite List.app_nil_r.
Qed.

(** X2.  First in, first out: the requests started so far, followed by
    those still waiting, are the submitted requests in their order. *)
Lemma fifo (schedule : list (nat * Callback)) :
  (started (log (run schedule)) ++ requestQueue (run schedule))%list
  = submitted schedule.
Proof. apply (order_fold schedule initial). Qed.

(** C7, the cool-down: with two requests submitted at time 0, the first
    settling at 100 ms and a third request arriving at 200 ms, the second
    request is started at 200 ms, 100 ms after the completion instead of
    the 1000 ms of the timer, which is still pending. *)
Theorem cooldown_skipped_on_arrival :
  log (run Examples.early_arrival)
  = [ Started 0 (mkRequest "dua" Examples.draft 1 0);
      Settled 100 (mkRequest "dua" Examples.draft 1 0);
      Started 200 (mkRequest "dua" Examples.draft 2 0) ] /\
  timers (run Examples.early_arrival) = [1100] /\
  200 < 100 + 1000.
Proof. split; [ reflexivity | split; [ reflexivity | lia ] ]. Qed.

End QueueProps.

(** ** The draft route and the local fallback *)

Module RouteProps.
Import JS Analysis Prompt Effects Statements.

Section Remote.
Variable net : Network.
Variable HF_API_URL : option string.
Variable HF_TOKEN : string.

Lemma secondary_fails (ct : string) (c : Content) (w : World) :
  unreachable net ->
  exists w',
    AIService.generateAnalysis net HF_API_URL HF_TOKEN ct c w
    = (w', Throw (new_Error "AI service temporarily unavailable")).
Proof.
  intros [_ Hpost].
  unfold AIService.generateAnalysis, io_try_catch, io_bind, AIService.post,
    log_event, lift, throw.
  destruct (Hpost (trace w)
              (AIService.request HF_API_URL HF_TOKEN (buildPrompt ct c)))
    as [e ->].
  cbn [of_sum]. eexists; reflexivity.
Qed.

Lemma primary_fails (ct : string) (c : Content) (w : World) :
  unreachable net ->
  exists w' e,
    Gemma3Service.generateAnalysis net HF_API_URL HF_TOKEN ct c w
    = (w', Throw e).
Proof.
  intros Hdown. pose proof Hdown as [Hchat _].
  destruct (Hchat (trace w) (Gemma3Service.request (buildPrompt ct c)))
    as [e He].
  rewrite (ClientProps.primary_failure _ _ _ ct c w e He).
  destruct (Gemma3Service.is_unavailable e).
  - destruct (secondary_fails ct c
                (logged w
                   [EvChat (Gemma3Service.request (buildPrompt ct c))])
                Hdown) as [w' ->].
    eexists; eexists; reflexivity.
  - eexists; eexists; reflexivity.
Qed.

(** With both services unreachable, a draft that passes the checks of
    the route is answered by the local analysis. *)
Lemma draft_falls_back (ct : string) (c : Content) (w : World) :
  unreachable net ->
  Routes.valid_type ct = true ->
  Routes.missing (title c) && Routes.missing (arabic_text c) = false ->
  exists w',
    Routes.analyze_draft net HF_API_URL HF_TOKEN ct (Some c) w
    = (w', Normal (Routes.mkResponse 200
                     (Routes.BAnalysis "completed"
                        (Routes.generateLocalFallbackAnalysis ct c)))).
Proof.
  intros Hdown Hvalid Hpresent.
  unfold Routes.analyze_draft. rewrite Hvalid, Hpresent. cbn [negb].
  unfold io_try_catch, io_bind.
  destruct (primary_fails ct c w Hdown) as [w1 [e1 ->]].
  destruct (secondary_fails ct c w1 Hdown) as [w2 ->].
  cbn. eexists; reflexivity.
Qed.

(** C8, as the code has it.  With both remote services unreachable, the
    draft route answers the dua [{title: "", arabic_text: "x"}] with
    status 'completed' and the local analysis: source "local_fallback",
    confidence 0.6, and two corrections, one for the short Arabic text
    and one for the missing meaning (none for the empty title). *)
Theorem local_fallback_for_draft (w : World) :
  unreachable net ->
  exists w' a,
    Routes.analyze_draft net HF_API_URL HF_TOKEN "dua"
                         (Some Examples.draft) w
    = (w', Normal (Routes.mkResponse 200 (Routes.BAnalysis "completed" a))) /\
    source a = Some "local_fallback" /\
    confidence a = c_0_6 /\
    corrections a
    = [ str (Routes.translate Routes.s_arabic_short);
        str (Routes.translate Routes.s_meaning_required) ].
Proof.
  intros Hdown.
  destruct (draft_falls_back "dua" Examples.draft w Hdown eq_refl eq_refl)
    as [w' Hrun].
  exists w', (Routes.generateLocalFallbackAnalysis "dua" Examples.draft).
  split; [ exact Hrun | ].
  repeat split; reflexivity.
Qed.
End Remote.

Lemma net_down_unreachable : unreachable Examples.net_down.
Proof. split; intros tr r; eexists; reflexivity. Qed.

Lemma local_fallback_for_draft_witness :
  exists w' a,
    Routes.analyze_draft Examples.net_down None "" "dua"
                         (Some Examples.draft) Examples.w_empty
    = (w', Normal (Routes.mkResponse 200 (Routes.BAnalysis "completed" a))) /\
    source a = Some "local_fallback" /\
    confidence a = c_0_6 /\
    corrections a
    = [ str (Routes.translate Routes.s_arabic_short);
        str (Routes.translate Routes.s_meaning_required) ].
Proof.
  apply (local_fallback_for_draft Examples.net_down None "" Examples.w_empty).
  split; intros tr r; eexists; reflexivity.
Defined.

(** The corrections returned for the draft do not mention its empty
    title. *)
Lemma empty_title_not_flagged :
  exists w' a,
    Routes.analyze_draft Examples.net_down None "" "dua"
                         (Some Examples.draft) Examples.w_empty
    = (w', Normal (Routes.mkResponse 200 (Routes.BAnalysis "completed" a))) /\
    title Examples.draft = Some "" /\
    ~ In (str (Routes.translate Routes.s_title)) (corrections a) /\
    ~ In (str Routes.s_title) (corrections a).
Proof.
  eexists; eexists.
  split; [ vm_compute; reflexivity | ].
  split; [ reflexivity | ].
  split; intros [H | [H | []]]; discriminate H.
Qed.

End RouteProps.

(** * Further properties of the code *)

(** ** The queue, for every schedule of callbacks *)

Module QueueMore.
Import JS Prompt Queue Statements MoreStatements.

Lemma awake_processQueue (now : nat) (q : State) : awake (processQueue now q).
Proof.
  unfold processQueue, awake.
  destruct (isProcessing q) eqn:Hp; cbn [orb].
  - congruence.
  - destruct (requestQueue q) as [ | r rest] eqn:Hq; cbn.
    + congruence.
    + discriminate.
Qed.

Lemma awake_step (q : State) (ev : nat * Callback) :
  awake q -> awake (step q ev).
Proof.
  intros Hq. destruct ev as [now [ct c who | | ]]; cbn [step fst snd].
  - apply awake_processQueue.
  - unfold settle. destruct (currentRequest q) as [cur | ]; [ | exact Hq ].
    intros _ Hne. cbn [timers requestQueue] in *.
    destruct (requestQueue q) as [ | head rest]; [ congruence | ].
    cbn. now destruct (timers q).
  - unfold timer. destruct (timers q) as [ | due rest] eqn:Ht; [ exact Hq | ].
    destruct (due <=? now)%nat; [ apply awake_processQueue | exact Hq ].
Qed.

Lemma awake_fold (schedule : list (nat * Callback)) (q : State) :
  awake q -> awake (List.fold_left step schedule q).
Proof.
  revert q; induction schedule as [ | ev rest IH]; intros q Hq; cbn.
  - exact Hq.
  - apply IH, awake_step, Hq.
Qed.

(** X3.  No request is stranded: after any callbacks, if the queue is idle
    and still holds requests, a timer that will call [processQueue] is
    pending. *)
Theorem waiting_request_has_timer (schedule : list (nat * Callback)) :
  isProcessing (run schedule) = false ->
  requestQueue (run schedule) <> [] ->
  timers (run schedule) <> [].
Proof.
  apply (awake_fold schedule initial). intros _ H. now elim H.
Qed.

Lemma waiting_request_has_timer_witness :
  timers (run MoreExamples.one_settled) <> [].
Proof.
  apply (waiting_request_has_timer MoreExamples.one_settled).
  - reflexivity.
  - discriminate.
Defined.

Lemma timers_set_weaken (q q' : State) :
  timers_set q ->
  (forall d, In d (timers q') -> In d (timers q)) ->
  (forall e, In e (log q) -> In e (log q')) ->
  timers_set q'.
Proof.
  intros Hq Ht Hl due Hin.
  destruct (Hq due (Ht due Hin)) as [t [r [Hlog ->]]].
  exists t, r. split; [ now apply Hl | reflexivity ].
Qed.

Lemma timers_set_processQueue (now : nat) (q : State) :
  timers_set q -> timers_set (processQueue now q).
Proof.
  intros Hq. unfold processQueue.
  destruct (isProcessing q || _); [ exact Hq | ].
  destruct (requestQueue q) as [ | head rest]; [ exact Hq | ].
  apply (timers_set_weaken q); [ exact Hq | now cbn | ].
  intros e He. cbn [log]. apply List.in_or_app. now left.
Qed.

Lemma timers_set_step (q : State) (ev : nat * Callback) :
  timers_set q -> timers_set (step q ev).
Proof.
  intros Hq. destruct ev as [now [ct c who | | ]]; cbn [step fst snd].
  - apply timers_set_processQueue.
    apply (timers_set_weaken q); [ exact Hq | now cbn | now cbn ].
  - unfold settle. destruct (currentRequest q) as [r | ]; [ | exact Hq ].
    intros due Hin. cbn [timers log] in *.
    assert (Hcases : In due (timers q) \/ due = now + 1000).
    { destruct (0 <? List.length (requestQueue q))%nat; [ | now left ].
      apply List.in_app_or in Hin. destruct Hin as [H | [H | []]];
        [ now left | now right ]. }
    destruct Hcases as [Hold | ->].
    + destruct (Hq due Hold) as [t [r' [Hlog ->]]].
      exists t, r'. split; [ | reflexivity ].
      apply List.in_or_app. now left.
    + exists now, r. split; [ | reflexivity ].
      apply List.in_or_app. right. now left.
  - unfold timer. destruct (timers q) as [ | due rest] eqn:Ht; [ exact Hq | ].
    destruct (due <=? now)%nat; [ | exact Hq ].
    apply timers_set_processQueue.
    apply (timers_set_weaken q); [ exact Hq | | now cbn ].
    intros d Hd. cbn [timers] in Hd. rewrite Ht. now right.
Qed.

Lemma timers_set_fold (schedule : list (nat * Callback)) (q : State) :
  timers_set q -> timers_set (List.fold_left step schedule q).
Proof.
  revert q; induction schedule as [ | ev rest IH]; intros q Hq; cbn.
  - exact Hq.
  - apply IH, timers_set_step, Hq.
Qed.

Lemma not_own_extension {A} (l : list A) (x : A) : l <> (l ++ [x])%list.
Proof.
  intros H. apply (f_equal (@List.length A)) in H.
  rewrite List.length_app in H. cbn in H. lia.
Qed.

(** X4.  A request that a timer callback starts is started at least
    1000 ms after a completion recorded in the log: the one whose [finally]
    block set that timer. *)
Theorem timer_start_after_cooldown
        (schedule : list (nat * Callback)) (now : nat) (r : Request) :
  log (step (run schedule) (now, Timer))
  = (log (run schedule) ++ [Started now r])%list ->
  exists t r', In (Settled t r') (log (run schedule)) /\ t + 1000 <= now.
Proof.
  pose proof (timers_set_fold schedule initial) as Hset.
  fold (run schedule) in Hset.
  assert (Hq : timers_set (run schedule)) by (apply Hset; intros d []).
  clear Hset. set (q := run schedule) in *.
  cbn [step fst snd]. unfold timer.
  destruct (timers q) as [ | due rest] eqn:Ht.
  - intros H. now apply not_own_extension in H.
  - destruct (due <=? now)%nat eqn:Hdue.
    + intros _. destruct (Hq due) as [t [r' [Hlog ->]]].
      * rewrite Ht. now left.
      * exists t, r'. split; [ exact Hlog | ].
        now apply Nat.leb_le.
    + intros H. now apply not_own_extension in H.
Qed.

Lemma timer_start_after_cooldown_witness :
  exists t r',
    In (Settled t r') (log (run MoreExamples.one_settled)) /\ t + 1000 <= 1100.
Proof.
  apply (timer_start_after_cooldown MoreExamples.one_settled 1100
           (mkRequest "dua" Examples.draft 2 0)).
  reflexivity.
Defined.

(** X5.  The snapshot of [getQueueStatus] is consistent after any
    callbacks: it reports a current request exactly when the busy flag is
    set, and its queue length is the number of submitted requests that have
    not been started. *)
Theorem queue_status_consistent (schedule : list (nat * Callback)) :
  fst (fst (getQueueStatus (run schedule)))
  = match snd (getQueueStatus (run schedule)) with
    | Some _ => true
    | None => false
    end /\
  List.length (started (log (run schedule)))
  + snd (fst (getQueueStatus (run schedule)))
  = List.length (submitted schedule).
Proof.
  destruct (QueueProps.invariant_fold schedule initial
              QueueProps.invariant_initial) as [_ _ Hc].
  fold (run schedule) in Hc.
  pose proof (QueueProps.order_fold schedule initial) as Ho.
  fold (run schedule) in Ho. unfold order in Ho. cbn in Ho.
  split.
  - cbn [getQueueStatus fst snd]. rewrite Hc.
    now destruct (currentRequest (run schedule)).
  - cbn [getQueueStatus fst snd]. rewrite <- Ho.
    now rewrite List.length_app.
Qed.

End QueueMore.

(** ** The two remote services *)

Module ClientMore.
Import JS Analysis Prompt Effects Statements MoreStatements.

Section Remote.
Variable net : Network.
Variable HF_API_URL : option string.
Variable HF_TOKEN : string.

Local Abbreviation primary :=
  (Gemma3Service.generateAnalysis net HF_API_URL HF_TOKEN).
Local Abbreviation secondary :=
  (AIService.generateAnalysis net HF_API_URL HF_TOKEN).
Local Abbreviation chat_request ct c :=
  (Gemma3Service.request (buildPrompt ct c)).
Local Abbreviation hf_request ct c :=
  (AIService.request HF_API_URL HF_TOKEN (buildPrompt ct c)).

Lemma secondary_run (ct : string) (c : Content) (w : World) :
  secondary ct c w
  = (logged w [EvPost (hf_request ct c)],
     match axios_post net (trace w) (hf_request ct c) with
     | inl _ => Throw unavailable_error
     | inr data => AIService.parseAIResponse data
     end).
Proof.
  unfold AIService.generateAnalysis, io_try_catch, io_bind, AIService.post,
    log_event, lift, throw, logged.
  destruct (axios_post net (trace w) _) as [e | data]; cbn [of_sum].
  - reflexivity.
  - destruct (ParserProps.aiservice_parse_returns data) as [r ->].
    reflexivity.
Qed.

Lemma secondary_throws (ct : string) (c : Content) (w : World) (e : JSError) :
  snd (secondary ct c w) = Throw e -> e = unavailable_error.
Proof.
  rewrite secondary_run. cbn [snd].
  destruct (axios_post net (trace w) _) as [e0 | data].
  - now intros [= <-].
  - destruct (ParserProps.aiservice_parse_returns data) as [r ->].
    discriminate.
Qed.

Lemma primary_throws (ct : string) (c : Content) (w : World) (e : JSError) :
  snd (primary ct c w) = Throw e -> e = unavailable_error.
Proof.
  destruct (chat_create net (trace w) (chat_request ct c)) as [e0 | s] eqn:H.
  - rewrite (ClientProps.primary_failure _ _ _ ct c w e0 H).
    destruct (Gemma3Service.is_unavailable e0).
    + apply secondary_throws.
    + now intros [= <-].
  - rewrite (ClientProps.primary_success _ _ _ ct c w s H). cbn [snd].
    destruct (ParserProps.gemma3_parse_returns s) as [r ->]. discriminate.
Qed.


(** X7.  A rejection of the first call that is not of the 503 class (a
    timeout, a refused connection) is not escalated: [generateAnalysis]
    throws after that single call, without calling the secondary
    service. *)
Theorem other_failures_not_escalated
        (ct : string) (c : Content) (w : World) (e : JSError) :
  chat_create net (trace w) (chat_request ct c) = inl e ->
  Gemma3Service.is_unavailable e = false ->
  primary ct c w = (logged w [EvChat (chat_request ct c)], Throw unavailable_error).
Proof.
  intros H Hu. now rewrite (ClientProps.primary_failure _ _ _ ct c w e H), Hu.
Qed.

End Remote.


Lemma other_failures_not_escalated_witness :
  Gemma3Service.generateAnalysis MoreExamples.net_timeout None "" "dua"
    Examples.draft Examples.w_empty
  = (logged Examples.w_empty
       [EvChat (Gemma3Service.request (buildPrompt "dua" Examples.draft))],
     Throw unavailable_error).
Proof.
  apply (other_failures_not_escalated MoreExamples.net_timeout None "" "dua"
           Examples.draft Examples.w_empty Examples.etimeout).
  - reflexivity.
  - vm_compute; reflexivity.
Defined.

End ClientMore.

(** ** A run of [processContent] *)

Module JobMore.
Import JS Analysis Prompt Effects Statements MoreStatements.

Section Remote.
Variable net : Network.
Variable HF_API_URL : option string.
Variable HF_TOKEN : string.

Local Abbreviation processContent :=
  (Gemma3Service.processContent net HF_API_URL HF_TOKEN).
Local Abbreviation generateAnalysis :=
  (Gemma3Service.generateAnalysis net HF_API_URL HF_TOKEN).

(** The four ways a run can go. *)
Lemma processContent_unfold (ct : string) (id : N) (w : World) :
  processContent ct id w
  = let w1 := fst (update_jobs ct id set_processing w) in
    match table_of ct with
    | None =>
        (fst (update_jobs ct id (set_failed "Invalid content type") w1),
         Throw (new_Error "Invalid content type"))
    | Some table =>
        match List.find (is_row table id) (contents w) with
        | None =>
            (fst (update_jobs ct id (set_failed "Content not found") w1),
             Throw (new_Error "Content not found"))
        | Some e =>
            match generateAnalysis ct (select_columns ct (fields (snd e))) w1 with
            | (w2, Normal a) =>
                (fst (update_jobs ct id (set_completed a)
                        (fst (updateContentWithAI ct id a w2))),
                 Normal a)
            | (w2, Throw err) =>
                (fst (update_jobs ct id (set_failed (err_message err)) w2),
                 Throw err)
            end
        end
    end.
Proof.
  unfold Gemma3Service.processContent, io_try_catch, io_bind, ret,
    update_jobs, getContent, Gemma3Service.generateAnalysisWithQueue,
    updateContentWithAI.
  cbv zeta. destruct (table_of ct) as [table | ] eqn:Ht; unfold throw.
  - cbn [fst snd contents]. destruct (List.find _ _) as [row | ].
    + match goal with
      | |- context [Gemma3Service.generateAnalysis ?n ?u ?t ?k ?c ?w1] =>
          destruct (Gemma3Service.generateAnalysis n u t k c w1) as [w2 [a | e]]
      end; reflexivity.
    + reflexivity.
  - reflexivity.
Qed.

(** X9.  The rows agree with what the caller gets: when [processContent]
    returns an analysis, every row of the key is 'completed' and holds that
    analysis; when it throws, every row of the key is 'failed' and holds the
    message of the thrown error; in both cases [processed_at] is set. *)
Theorem outcome_is_recorded (ct : string) (id : N) (w : World) (r : JobRow) :
  In r (jobs (fst (processContent ct id w))) ->
  same_key ct id r = true ->
  match snd (processContent ct id w) with
  | Normal a =>
      status r = completed /\ result r = Some a /\
      processed_at r = Some (clock w)
  | Throw e =>
      status r = failed /\ error_message r = Some (err_message e) /\
      processed_at r = Some (clock w)
  end.
Proof.
  intros Hin Hk.
  destruct (JobProps.processContent_rows net HF_API_URL HF_TOKEN ct id w)
    as [Hrows _].
  rewrite Hrows in Hin. unfold rewrite_rows in Hin.
  apply List.in_map_iff in Hin. destruct Hin as [r0 [<- _]].
  destruct (same_key ct id r0) eqn:Hk0; [ | congruence ].
  destruct (snd (processContent ct id w)); cbn; repeat split; reflexivity.
Qed.

(** Without faults the run is the run of [Gemma3Service.processContent]. *)
Lemma no_faults_processContent (ct : string) (id : N) (w : World) :
  Faults.processContent net HF_API_URL HF_TOKEN Faults.no_faults ct id w
  = processContent ct id w.
Proof.
  unfold Faults.processContent, Gemma3Service.processContent,
    Faults.getContent, Faults.updateContentWithAI,
    Faults.generateAnalysisWithQueue,
    Gemma3Service.generateAnalysisWithQueue, Faults.query,
    getContent, updateContentWithAI, io_try_catch, io_bind.
  cbn [Faults.rejects Faults.cleared Faults.no_faults].
  destruct (table_of ct); reflexivity.
Qed.

(** What the handler of [processContent] throws: the error it caught, or
    the rejection of its own statement. *)
Lemma handler_throws (f : Faults.Faults) (ct : string) (id : N)
      (err e : JSError) (w : World) :
  snd ((Faults.query f Faults.MarkFailed
          (update_jobs ct id (set_failed (err_message err))) ;;;
        (throw err : IO AnalysisRecord)) w) = Throw e ->
  e = err \/ Faults.rejection f e.
Proof.
  unfold io_bind, Faults.query, update_jobs, throw.
  destruct (Faults.rejects f Faults.MarkFailed w) as [e0 | ] eqn:Hr;
    cbn [snd]; intros [= <-].
  - right. now exists Faults.MarkFailed, w.
  - now left.
Qed.

(** X10.  Where the errors of [processContent] come from, also when the
    database rejects statements and the queue is cleared: every error it
    throws is the rejection of one of its statements, 'Invalid content
    type', 'Content not found', 'AI service temporarily unavailable', or,
    only if [clearQueue] rejected the waiting request, 'Queue cleared'.
    The error of [updateContentWithAI], 'Invalid content type for update',
    is never thrown by the code: [getContent] has refused the same content
    type before. *)
Theorem processContent_errors
        (f : Faults.Faults) (ct : string) (id : N) (w : World) (e : JSError) :
  snd (Faults.processContent net HF_API_URL HF_TOKEN f ct id w) = Throw e ->
  (Faults.rejection f e \/
   e = new_Error "Invalid content type" \/
   e = new_Error "Content not found" \/
   e = unavailable_error \/
   (Faults.cleared f = true /\ e = new_Error "Queue cleared")) /\
  (e = new_Error "Invalid content type for update" -> Faults.rejection f e).
Proof.
  intros H.
  assert (Hsrc : Faults.rejection f e \/
                 e = new_Error "Invalid content type" \/
                 e = new_Error "Content not found" \/
                 e = unavailable_error \/
                 (Faults.cleared f = true /\ e = new_Error "Queue cleared")).
  { revert H. unfold Faults.processContent, io_try_catch.
    match goal with
    | |- context [match ?body w with _ => _ end] =>
        destruct (body w) as [w1 [a | err]] eqn:Hbody
    end; [ discriminate | ].
    intros H. apply handler_throws in H.
    destruct H as [-> | H]; [ | now left ].
    revert Hbody.
    unfold io_bind at 1. unfold Faults.query at 1.
    destruct (Faults.rejects f Faults.MarkProcessing w) as [e0 | ] eqn:Hr0.
    { intros [= _ <-]. left. now exists Faults.MarkProcessing, w. }
    unfold update_jobs at 1. cbv beta iota.
    unfold io_bind at 1, Faults.getContent.
    destruct (table_of ct) as [table | ] eqn:Ht; unfold throw at 1;
      [ | intros [= _ <-]; right; now left ].
    unfold Faults.query at 1.
    match goal with
    | |- context [Faults.rejects f Faults.SelectContent ?w0] =>
        destruct (Faults.rejects f Faults.SelectContent w0) as [e1 | ] eqn:Hr1;
          [ intros [= _ <-]; left; now exists Faults.SelectContent, w0 | ]
    end.
    unfold getContent. rewrite Ht. cbv beta iota.
    destruct (List.find _ _) as [row | ];
      [ | unfold throw; intros [= _ <-]; right; right; now left ].
    unfold io_bind at 1, Faults.generateAnalysisWithQueue.
    destruct (Faults.cleared f) eqn:Hc.
    { unfold throw. intros [= _ <-]. right; right; right; right.
      now split. }
    match goal with
    | |- context [Gemma3Service.generateAnalysis ?n ?u ?t ?k ?c ?w0] =>
        pose proof (ClientMore.primary_throws n u t k c w0) as Hthrow;
          destruct (Gemma3Service.generateAnalysis n u t k c w0)
            as [w2 [a | e2]]
    end.
    2:{ intros [= _ <-]. right; right; right; left.
        now apply Hthrow. }
    clear Hthrow.
    unfold io_bind at 1, Faults.updateContentWithAI. rewrite Ht.
    unfold Faults.query at 1.
    destruct (Faults.rejects f Faults.UpdateContent w2) as [e3 | ] eqn:Hr3;
      [ intros [= _ <-]; left; now exists Faults.UpdateContent, w2 | ].
    unfold updateContentWithAI. rewrite Ht. cbv beta iota.
    unfold io_bind, Faults.query.
    match goal with
    | |- context [Faults.rejects f Faults.MarkCompleted ?w0] =>
        destruct (Faults.rejects f Faults.MarkCompleted w0) as [e4 | ] eqn:Hr4;
          [ intros [= _ <-]; left; now exists Faults.MarkCompleted, w0 | ]
    end.
    unfold update_jobs, ret. discriminate. }
  split; [ exact Hsrc | ].
  intros ->.
  destruct Hsrc as [Hdb | [Hx | [Hx | [Hx | [_ Hx]]]]];
    [ exact Hdb | discriminate Hx .. ].
Qed.

(** X11.  When the content type is unknown or the content row does not
    exist, [processContent] throws without any remote call and without
    touching the content tables. *)
Theorem no_call_without_content (ct : string) (id : N) (w : World) :
  (forall c, snd (getContent ct id w) <> Normal (Some c)) ->
  trace (fst (processContent ct id w)) = trace w /\
  contents (fst (processContent ct id w)) = contents w /\
  exists e, snd (processContent ct id w) = Throw e.
Proof.
  intros Hnone. rewrite processContent_unfold. cbv zeta.
  unfold getContent in Hnone.
  destruct (table_of ct) as [table | ].
  - cbn [snd] in Hnone. destruct (List.find _ _) as [row | ].
    + now elim (Hnone (select_columns ct (fields (snd row)))).
    + cbn. repeat split. eauto.
  - cbn. repeat split. eauto.
Qed.



(** X13.  What the model is shown of stored content other than a dua: the
    prompt built from the row that [getContent] returns carries the title
    alone, and for an answer, whose title is not selected, it is the same
    prompt whatever the answer. *)
Theorem prompt_of_stored_content
        (ct : string) (id : N) (w : World) (c : Content) :
  snd (getContent ct id w) = Normal (Some c) ->
  ct <> "dua" ->
  buildPrompt ct c
  = buildPrompt ct (mkContent (title c) None None None None None None None None)
  /\ (ct = "answer" -> buildPrompt ct c = buildPrompt ct empty_content).
Proof.
  intros Hget Hkind. unfold getContent in Hget.
  destruct (table_of ct) as [table | ]; [ | discriminate ].
  cbn [snd] in Hget. destruct (List.find _ _) as [row | ]; [ | discriminate ].
  injection Hget as <-. unfold select_columns.
  destruct (String.eqb_spec ct "dua") as [Heq | _]; [ now elim Hkind | ].
  destruct (String.eqb_spec ct "answer") as [-> | Hne].
  - split; [ reflexivity | reflexivity ].
  - split; [ reflexivity | intros Heq; now elim Hne ].
Qed.
End Remote.

Lemma outcome_is_recorded_witness :
  exists a,
    snd (Gemma3Service.processContent MoreExamples.net_up None "" "dua" 1
           MoreExamples.w_ready) = Normal a /\
    status (set_completed a 5 Examples.pending_row) = completed /\
    result (set_completed a 5 Examples.pending_row) = Some a /\
    processed_at (set_completed a 5 Examples.pending_row) = Some 5%N.
Proof.
  destruct (JobProps.processContent_rows MoreExamples.net_up None ""
              "dua" 1 MoreExamples.w_ready) as [Hrows _].
  destruct (snd (Gemma3Service.processContent MoreExamples.net_up None ""
                   "dua" 1 MoreExamples.w_ready)) as [a | e] eqn:Hres.
  - exists a. split; [ reflexivity | ].
    pose proof (outcome_is_recorded MoreExamples.net_up None "" "dua" 1
                  MoreExamples.w_ready (set_completed a 5 Examples.pending_row))
      as H.
    rewrite Hres in H. apply H.
    + rewrite Hrows. now left.
    + reflexivity.
  - vm_compute in Hres. discriminate Hres.
Defined.

Lemma processContent_errors_witness :
  snd (Faults.processContent MoreExamples.net_up None EmptyString
         Faults.write_back_rejected "dua" 1 MoreExamples.w_ready)
  = Throw Faults.json_rejected /\
  (Faults.rejection Faults.write_back_rejected Faults.json_rejected \/
   Faults.json_rejected = new_Error "Invalid content type" \/
   Faults.json_rejected = new_Error "Content not found" \/
   Faults.json_rejected = unavailable_error \/
   (Faults.cleared Faults.write_back_rejected = true /\
    Faults.json_rejected = new_Error "Queue cleared")).
Proof.
  split; [ vm_compute; reflexivity | ].
  apply (processContent_errors MoreExamples.net_up None EmptyString
           Faults.write_back_rejected "dua" 1 MoreExamples.w_ready
           Faults.json_rejected).
  vm_compute; reflexivity.
Defined.

Lemma no_call_without_content_witness :
  trace (fst (Gemma3Service.processContent Examples.net_down None "" "dua" 1
                Examples.w_pending)) = [] /\
  contents (fst (Gemma3Service.processContent Examples.net_down None "" "dua"
                   1 Examples.w_pending)) = [] /\
  exists e,
    snd (Gemma3Service.processContent Examples.net_down None "" "dua" 1
           Examples.w_pending) = Throw e.
Proof.
  apply (no_call_without_content Examples.net_down None "" "dua" 1
           Examples.w_pending).
  intros c H. vm_compute in H. discriminate H.
Defined.

Lemma prompt_of_stored_content_witness :
  buildPrompt "answer" (select_columns "answer" MoreExamples.an_answer)
  = buildPrompt "answer" empty_content.
Proof.
  apply (prompt_of_stored_content "answer" 7 MoreExamples.w_ready
           (select_columns "answer" MoreExamples.an_answer)).
  - reflexivity.
  - discriminate.
  - reflexivity.
Defined.

End JobMore.

(** ** The dispatcher and its statistics *)

Module DispatchMore.
Import JS Analysis Prompt Effects Statements MoreStatements.

(** X14.  The mode of the dispatcher: it runs through the broker exactly
    when [REDIS_URL] is set, not empty and not 'redis://localhost:6379', and
    the broker queue could be created; otherwise it runs inline.  The value
    'inline' is no exception: it is taken as the address of a broker. *)
Theorem broker_mode_iff (REDIS_URL : option string) (redis_ok : bool) :
  inline (QueueService.constructor REDIS_URL redis_ok)
  = negb (names_broker REDIS_URL && redis_ok).
Proof.
  unfold inline, QueueService.constructor, names_broker.
  destruct REDIS_URL as [u | ]; [ | reflexivity ].
  cbn [or_text]. destruct u as [ | ch u]; [ reflexivity | ].
  cbn [is_empty negb andb].
  destruct (String.eqb (String ch u) "redis://localhost:6379");
    destruct (String.eqb (String ch u) "inline");
    destruct redis_ok; reflexivity.
Qed.

Section Remote.
Variable net : Network.
Variable HF_API_URL : option string.
Variable HF_TOKEN : string.

Local Abbreviation addAIAnalysisJob :=
  (QueueService.addAIAnalysisJob net HF_API_URL HF_TOKEN).

(** X15.  In inline mode the rows agree with what the dispatcher hands
    back: when it returns, it returns [{success: true, result}] and every
    row of the key is 'completed' with that result; when it throws, every
    row of the key is 'failed' with the message of the error. *)
Theorem inline_dispatch_recorded
        (this : QueueService.Service) (ct : string) (id : N) (prio : string)
        (w : World) (r : JobRow) :
  inline this = true ->
  In r (jobs (fst (addAIAnalysisJob this ct id prio w))) ->
  same_key ct id r = true ->
  match snd (addAIAnalysisJob this ct id prio w) with
  | Normal (QueueService.Inline ok a) =>
      ok = true /\ status r = completed /\ result r = Some a
  | Normal (QueueService.Queued _) => False
  | Throw e => status r = failed /\ error_message r = Some (err_message e)
  end.
Proof.
  intros Hi.
  destruct (Gemma3Service.processContent net HF_API_URL HF_TOKEN ct id
              (fst (update_jobs ct id set_processing w)))
    as [w' res] eqn:Hp.
  rewrite (JobProps.addAIAnalysisJob_inline net HF_API_URL HF_TOKEN
             this ct id prio w w' res Hi Hp).
  destruct res as [a | e]; cbn [fst snd update_jobs jobs];
    unfold rewrite_rows; intros Hin Hk;
    apply List.in_map_iff in Hin; destruct Hin as [r0 [<- _]];
    (destruct (same_key ct id r0) eqn:Hk0; [ | congruence ]);
    repeat split; reflexivity.
Qed.
End Remote.

Lemma inline_dispatch_recorded_witness :
  exists a,
    snd (QueueService.addAIAnalysisJob MoreExamples.net_up None ""
           Examples.inline_service "dua" 1 "normal" MoreExamples.w_ready)
    = Normal (QueueService.Inline true a) /\
    status (set_completed a 5 Examples.pending_row) = completed /\
    result (set_completed a 5 Examples.pending_row) = Some a.
Proof.
  pose (run := QueueService.addAIAnalysisJob MoreExamples.net_up None ""
                 Examples.inline_service "dua" 1 "normal" MoreExamples.w_ready).
  pose (a := match snd run with
             | Normal (QueueService.Inline _ a) => a
             | _ => Gemma3Service.placeholder
             end).
  assert (Hres : snd run = Normal (QueueService.Inline true a))
    by (vm_compute; reflexivity).
  assert (Hjobs : jobs (fst run) = [set_completed a 5 Examples.pending_row])
    by (vm_compute; reflexivity).
  exists a. split; [ exact Hres | ].
  pose proof (inline_dispatch_recorded MoreExamples.net_up None ""
                Examples.inline_service "dua" 1 "normal" MoreExamples.w_ready
                (set_completed a 5 Examples.pending_row) eq_refl) as H.
  fold run in H. rewrite Hres in H.
  destruct H as [_ H].
  - rewrite Hjobs. now left.
  - reflexivity.
  - exact H.
Defined.

End DispatchMore.

Module StatsMore.
Import JS Effects Statements MoreStatements.
Import QueueStats.

Lemma status_eqb_eq (a b : Status) : status_eqb a b = true <-> a = b.
Proof. destruct a, b; cbn; split; congruence. Qed.

Lemma value_add_row (s : Stats) (st st' : Status) (n : nat) :
  value (add_row s (st, n)) st' = if status_eqb st st' then n else value s st'.
Proof. destruct st, st'; reflexivity. Qed.

Lemma queued_fold (rows : list (Status * nat)) (s : Stats) :
  queued (List.fold_left add_row rows s) = queued s.
Proof.
  revert s; induction rows as [ | [st n] rows IH]; intros s; cbn; [ reflexivity | ].
  rewrite IH. now destruct st.
Qed.

Lemma value_fold_other (rows : list (Status * nat)) (s : Stats) (st : Status) :
  ~ In st (List.map fst rows) ->
  value (List.fold_left add_row rows s) st = value s st /\
  (st = Effects.pending ->
   QueueStats.pending (List.fold_left add_row rows s) = QueueStats.pending s).
Proof.
  revert s; induction rows as [ | [st0 n] rows IH]; intros s Hnot; cbn.
  - now split.
  - cbn in Hnot.
    destruct (IH (add_row s (st0, n))) as [Hv Hp]; [ tauto | ].
    rewrite Hv, value_add_row.
    destruct (status_eqb st0 st) eqn:E.
    + apply status_eqb_eq in E. tauto.
    + split; [ reflexivity | ].
      intros ->. rewrite (Hp eq_refl). destruct st0; try reflexivity.
      discriminate E.
Qed.

Lemma value_fold_in (rows : list (Status * nat)) (s : Stats)
      (st : Status) (n : nat) :
  NoDup (List.map fst rows) -> In (st, n) rows ->
  value (List.fold_left add_row rows s) st = n /\
  (st = Effects.pending ->
   QueueStats.pending (List.fold_left add_row rows s) = Some n).
Proof.
  revert s; induction rows as [ | [st0 n0] rows IH]; intros s Hnd Hin;
    [ contradiction | ].
  cbn in Hnd. inversion Hnd as [ | ? ? Hnot Hnd']; subst.
  cbn [List.fold_left]. destruct Hin as [[= -> ->] | Hin].
  - destruct (value_fold_other rows (add_row s (st, n)) st Hnot) as [Hv Hp].
    rewrite Hv, value_add_row.
    assert (E : status_eqb st st = true) by now apply status_eqb_eq.
    rewrite E. split; [ reflexivity | ].
    intros ->. now rewrite (Hp eq_refl).
  - now apply IH.
Qed.

Lemma total_fold (rows : list (Status * nat)) (s : Stats) :
  NoDup (List.map fst rows) ->
  (forall st, In st (List.map fst rows) -> value s st = 0) ->
  total (List.fold_left add_row rows s) + weight s
  = weight (List.fold_left add_row rows s) + total s.
Proof.
  revert s; induction rows as [ | [st n] rows IH]; intros s Hnd Hzero.
  - cbn. lia.
  - cbn in Hnd. inversion Hnd as [ | ? ? Hnot Hnd']; subst.
    cbn [List.fold_left].
    assert (Hrest : forall st', In st' (List.map fst rows) ->
                                value (add_row s (st, n)) st' = 0).
    { intros st' Hin. rewrite value_add_row.
      destruct (status_eqb st st') eqn:E.
      - apply status_eqb_eq in E. subst. contradiction.
      - apply Hzero. now right. }
    pose proof (IH (add_row s (st, n)) Hnd' Hrest) as H.
    assert (Hst : value s st = 0) by (apply Hzero; now left).
    assert (Hw : weight (add_row s (st, n)) = weight s + n
                 /\ total (add_row s (st, n)) = total s + n).
    { unfold weight. rewrite !value_add_row.
      destruct st; cbn [status_eqb] in *; cbn [total add_row fst snd]; lia. }
    lia.
Qed.

Lemma count_partition (jobs : list JobRow) :
  count_status Effects.pending jobs + count_status Effects.processing jobs
  + count_status Effects.completed jobs + count_status Effects.failed jobs
  = List.length jobs.
Proof.
  unfold count_status. induction jobs as [ | r jobs IH]; [ reflexivity | ].
  cbn [List.filter List.length]. destruct (status r); cbn; lia.
Qed.

Lemma value_grouped (jobs : list JobRow) (rows : list (Status * nat))
      (st : Status) :
  grouped jobs rows ->
  value (List.fold_left add_row rows zero) st = count_status st jobs /\
  (st = Effects.pending ->
   QueueStats.pending (List.fold_left add_row rows zero)
   = if (count_status st jobs =? 0)%nat then None
     else Some (count_status st jobs)).
Proof.
  intros [Hnd Hrows].
  destruct (count_status st jobs) as [ | k] eqn:Hc.
  - assert (Hnot : ~ In st (List.map fst rows)).
    { intros Hin. apply List.in_map_iff in Hin.
      destruct Hin as [[st' n] [Hfst Hin]]. cbn in Hfst. subst st'.
      apply Hrows in Hin. lia. }
    destruct (value_fold_other rows zero st Hnot) as [Hv Hp].
    rewrite Hv. split; [ now destruct st | ].
    intros ->. now rewrite (Hp eq_refl).
  - assert (Hin : In (st, S k) rows) by (apply Hrows; lia).
    destruct (value_fold_in rows zero st (S k) Hnd Hin) as [Hv Hp].
    split; [ exact Hv | exact Hp ].
Qed.

(** X16.  The statistics of the inline dispatcher, for any order in which
    the grouping statement lists the statuses: [total] is the number of job
    rows, [processing], [completed] and [failed] are the numbers of rows in
    those statuses, and [queued] is always 0; the pending rows are counted
    under a key of their own, 'pending', which is present only when there
    are some. *)
Theorem inline_statistics
        (this : QueueService.Service) (jobs : list JobRow)
        (rows : list (Status * nat)) (bull : nat * nat * nat * nat) :
  inline this = true ->
  grouped jobs rows ->
  total (getQueueStats this rows bull) = List.length jobs /\
  queued (getQueueStats this rows bull) = 0 /\
  QueueStats.processing (getQueueStats this rows bull)
  = count_status Effects.processing jobs /\
  QueueStats.completed (getQueueStats this rows bull)
  = count_status Effects.completed jobs /\
  QueueStats.failed (getQueueStats this rows bull)
  = count_status Effects.failed jobs /\
  QueueStats.pending (getQueueStats this rows bull)
  = if (count_status Effects.pending jobs =? 0)%nat then None
    else Some (count_status Effects.pending jobs).
Proof.
  unfold inline. intros Hi Hg. unfold getQueueStats. rewrite Hi.
  pose proof (value_grouped jobs rows Effects.pending Hg) as [Hp Hpk].
  pose proof (value_grouped jobs rows Effects.processing Hg) as [Hr _].
  pose proof (value_grouped jobs rows Effects.completed Hg) as [Hc _].
  pose proof (value_grouped jobs rows Effects.failed Hg) as [Hf _].
  cbn [value] in Hr, Hc, Hf.
  split; [ | split; [ apply queued_fold | ] ].
  - destruct Hg as [Hnd _].
    pose proof (total_fold rows zero Hnd (fun st _ => match st with
                  | Effects.pending | _ => eq_refl end)) as Ht.
    unfold weight in Ht at 2. rewrite Hp in Ht. cbn [value] in Ht.
    rewrite Hr, Hc, Hf, count_partition in Ht.
    cbn in Ht. lia.
  - repeat split; try assumption. now apply Hpk.
Qed.

Lemma inline_statistics_witness :
  total (getQueueStats Examples.inline_service
           [(Effects.completed, 1); (Effects.pending, 2)] (0, 0, 0, 0)) = 3 /\
  queued (getQueueStats Examples.inline_service
            [(Effects.completed, 1); (Effects.pending, 2)] (0, 0, 0, 0)) = 0.
Proof.
  destruct (inline_statistics Examples.inline_service
              [Examples.pending_row; Examples.done_row; Examples.pending_row]
              [(Effects.completed, 1); (Effects.pending, 2)] (0, 0, 0, 0))
    as [Ht [Hq _]].
  - reflexivity.
  - split.
    + repeat constructor; cbn; intuition discriminate.
    + intros st n; split.
      * intros [[= <- <-] | [[= <- <-] | []]]; cbn;
          (split; [ reflexivity | lia ]).
      * intros [-> Hpos]. destruct st; cbn in *; try lia; tauto.
  - split; [ exact Ht | exact Hq ].
Defined.

End StatsMore.

(** ** The job loop of [AIService] *)

Module LoopMore.
Import JS Analysis Prompt Effects Statements MoreStatements.
Import QueueStats.

Lemma count_rewrite_le (ct : string) (id : N) (set : JobRow -> JobRow)
      (rows : list JobRow) :
  (forall r, status (set r) <> Effects.pending) ->
  count_status Effects.pending (rewrite_rows ct id set rows)
  <= count_status Effects.pending rows.
Proof.
  intros Hset. unfold count_status, rewrite_rows.
  induction rows as [ | r rows IH]; [ reflexivity | ].
  cbn [List.map List.filter].
  destruct (same_key ct id r).
  - pose proof (Hset r) as Hr.
    destruct (status (set r)); try (now elim Hr);
      destruct (status r); cbn; lia.
  - destruct (status r); cbn; lia.
Qed.

Lemma count_rewrite_lt (ct : string) (id : N) (set : JobRow -> JobRow)
      (rows : list JobRow) (item : JobRow) :
  (forall r, status (set r) <> Effects.pending) ->
  In item rows ->
  same_key ct id item = true ->
  status item = Effects.pending ->
  count_status Effects.pending (rewrite_rows ct id set rows)
  < count_status Effects.pending rows.
Proof.
  intros Hset Hin Hk Hp.
  induction rows as [ | r rows IH]; [ contradiction | ].
  pose proof (count_rewrite_le ct id set rows Hset) as Hle.
  unfold count_status, rewrite_rows in *.
  cbn [List.map List.filter]. destruct Hin as [-> | Hin].
  - rewrite Hk, Hp. pose proof (Hset item) as Hr.
    destruct (status (set item)); try (now elim Hr); cbn; lia.
  - specialize (IH Hin).
    destruct (same_key ct id r).
    + pose proof (Hset r) as Hr.
      destruct (status (set r)); try (now elim Hr);
        destruct (status r); cbn; lia.
    + destruct (status r); cbn; lia.
Qed.

Lemma run_outcome_not_pending (now : N) (res : Result AnalysisRecord) (r : JobRow) :
  status (run_outcome now res r) <> Effects.pending.
Proof. destruct res; discriminate. Qed.

Section Remote.
Variable net : Network.
Variable HF_API_URL : option string.
Variable HF_TOKEN : string.

Local Abbreviation processContent :=
  (AIServiceJobs.processContent net HF_API_URL HF_TOKEN).
Local Abbreviation processQueue :=
  (AIServiceJobs.processQueue net HF_API_URL HF_TOKEN).

Lemma aiservice_processContent_rows (ct : string) (id : N) (w : World) :
  jobs (fst (processContent ct id w))
  = rewrite_rows ct id
      (run_outcome (clock w) (snd (processContent ct id w))) (jobs w).
Proof.
  unfold AIServiceJobs.processContent, io_try_catch, io_bind, ret,
    update_jobs, getContent, updateContentWithAI.
  destruct (table_of ct) as [table | ] eqn:Ht; unfold throw.
  - destruct (List.find _ _) as [row | ].
    + match goal with
      | |- context [AIService.generateAnalysis ?n ?u ?t ?k ?c ?w1] =>
          pose proof (ClientProps.secondary_world n u t k c w1) as Hw;
          destruct (AIService.generateAnalysis n u t k c w1) as [w2 [a | e]]
      end; cbn [fst] in Hw; subst w2;
        cbn [fst snd jobs clock logged run_outcome];
        now rewrite JobProps.rewrite_rows_twice
          by apply JobProps.keeps_key_processing.
    + cbn [fst snd jobs clock run_outcome].
      now rewrite JobProps.rewrite_rows_twice
        by apply JobProps.keeps_key_processing.
  - cbn [fst snd jobs clock run_outcome].
    now rewrite JobProps.rewrite_rows_twice
      by apply JobProps.keeps_key_processing.
Qed.

(** X17.  A tick of the job loop never throws.  When the loop is already
    busy, or no row is pending, it changes nothing; otherwise it settles the
    selected row and every other row of the same content, so that the
    number of pending rows goes down. *)
Theorem processQueue_retires_pending
        (busy : bool) (answer : option JobRow) (w : World) :
  AIServiceJobs.selected (jobs w) answer ->
  snd (processQueue busy answer w) = Normal tt /\
  match busy, answer with
  | false, Some item =>
      count_status Effects.pending (jobs (fst (processQueue busy answer w)))
      < count_status Effects.pending (jobs w) /\
      forall r, In r (jobs (fst (processQueue busy answer w))) ->
                same_key (content_type item) (content_id item) r = true ->
                terminal (status r)
  | _, _ => fst (processQueue busy answer w) = w
  end.
Proof.
  intros Hsel. unfold AIServiceJobs.processQueue.
  destruct busy; [ now split | ].
  destruct answer as [item | ]; [ | now split ].
  destruct Hsel as [Hin [Hp _]].
  unfold io_try_catch, io_bind, ret.
  pose proof (aiservice_processContent_rows (content_type item) (content_id item) w)
    as Hrows.
  destruct (processContent (content_type item) (content_id item) w)
    as [w' res] eqn:Hrun.
  cbn [fst snd] in Hrows.
  assert (Hjobs : jobs (fst (match res with
                             | Normal _ => (w', Normal tt)
                             | Throw _ => (w', Normal tt)
                             end)) = jobs w') by now destruct res.
  assert (Hkey : same_key (content_type item) (content_id item) item = true).
  { unfold same_key. now rewrite String.eqb_refl, N.eqb_refl. }
  split; [ now destruct res | ].
  destruct res as [a | e]; cbn [fst] in *; rewrite Hrows.
  - split.
    + apply (count_rewrite_lt _ _ _ _ item); try assumption.
      apply run_outcome_not_pending.
    + intros r Hr Hk. unfold rewrite_rows in Hr.
      apply List.in_map_iff in Hr. destruct Hr as [r0 [<- _]].
      destruct (same_key _ _ r0) eqn:Hk0; [ now left | congruence ].
  - split.
    + apply (count_rewrite_lt _ _ _ _ item); try assumption.
      apply run_outcome_not_pending.
    + intros r Hr Hk. unfold rewrite_rows in Hr.
      apply List.in_map_iff in Hr. destruct Hr as [r0 [<- _]].
      destruct (same_key _ _ r0) eqn:Hk0; [ now right | congruence ].
Qed.
End Remote.

Lemma processQueue_retires_pending_witness :
  snd (AIServiceJobs.processQueue Examples.net_down None "" false
         (Some Examples.pending_row) Examples.w_pending) = Normal tt /\
  count_status Effects.pending
    (jobs (fst (AIServiceJobs.processQueue Examples.net_down None "" false
                  (Some Examples.pending_row) Examples.w_pending)))
  < count_status Effects.pending (jobs Examples.w_pending).
Proof.
  destruct (processQueue_retires_pending Examples.net_down None "" false
              (Some Examples.pending_row) Examples.w_pending)
    as [Hres [Hless _]].
  - split; [ now left | ]. split; [ reflexivity | ].
    intros r [<- | []] _. apply N.le_refl.
  - split; [ exact Hres | exact Hless ].
Defined.

End LoopMore.

(** ** The routes *)

Module RouteMore.
Import JS Analysis Prompt Effects Statements MoreStatements.


Lemma when_keys (b : bool) (s : string) :
  In s (List.map fst Routes.banglaTranslations) ->
  Forall (fun x => In x (List.map fst Routes.banglaTranslations))
         (Routes.when b s).
Proof. intros H. destruct b; cbn; [ now constructor | constructor ]. Qed.

Lemma suggestions_are_keys (ct : string) (c : Content) :
  Forall (fun x => In x (List.map fst Routes.banglaTranslations))
         (Routes.suggestions_for ct c).
Proof.
  unfold Routes.suggestions_for.
  match goal with
  | |- Forall _ (if ?b then _ else ?found) =>
      assert (Hfound : Forall (fun x => In x (List.map fst Routes.banglaTranslations))
                              found)
  end.
  { repeat (apply List.Forall_app; split);
      repeat match goal with
             | |- Forall _ (if ?b then _ else _) => destruct b
             | |- Forall _ (_ ++ _)%list => apply List.Forall_app; split
             | |- Forall _ [] => constructor
             | |- Forall _ (Routes.when _ _) =>
                 apply when_keys; cbn; tauto
             end. }
  match goal with
  | |- Forall _ (if ?b then _ else _) => destruct b
  end; [ | exact Hfound ].
  repeat constructor; cbn; tauto.
Qed.

Lemma translate_key (s : string) :
  In s (List.map fst Routes.banglaTranslations) ->
  In (Routes.translate s) (List.map snd Routes.banglaTranslations).
Proof.
  intros H. cbn in H.
  repeat (destruct H as [<- | H]; [ vm_compute; tauto | ]).
  contradiction.
Qed.

(** X21.  The local analysis always has something to say, and says it in
    Bangla: its list of corrections is never empty, and every entry is one
    of the translations of the table (the English text of a rule is never
    passed through). *)
Theorem local_corrections (ct : string) (c : Content) :
  corrections (Routes.generateLocalFallbackAnalysis ct c) <> [] /\
  Forall (fun v => exists b,
              v = JStr b /\ In b (List.map snd Routes.banglaTranslations))
         (corrections (Routes.generateLocalFallbackAnalysis ct c)).
Proof.
  cbn [corrections Routes.generateLocalFallbackAnalysis]. split.
  - unfold Routes.suggestions_for.
    match goal with
    | |- List.map _ (if (List.length ?found =? 0)%nat then _ else _) <> _ =>
        destruct found; cbn; discriminate
    end.
  - apply List.Forall_map.
    apply (List.Forall_impl _ (P := fun x =>
             In x (List.map fst Routes.banglaTranslations)));
      [ | apply suggestions_are_keys ].
    intros s Hs. exists (Routes.translate s).
    split; [ reflexivity | now apply translate_key ].
Qed.

Section Remote.
Variable net : Network.
Variable HF_API_URL : option string.
Variable HF_TOKEN : string.

Local Abbreviation primary :=
  (Gemma3Service.generateAnalysis net HF_API_URL HF_TOKEN).
Local Abbreviation secondary :=
  (AIService.generateAnalysis net HF_API_URL HF_TOKEN).
Local Abbreviation chat_request ct c :=
  (Gemma3Service.request (buildPrompt ct c)).
Local Abbreviation hf_request ct c :=
  (AIService.request HF_API_URL HF_TOKEN (buildPrompt ct c)).
Local Abbreviation analyze_draft :=
  (Routes.analyze_draft net HF_API_URL HF_TOKEN).




(** X19.  A draft with neither a title nor an Arabic text is refused with
    status 400 before any remote call, whatever else it holds; so the body
    of an answer, which has no title, cannot be analyzed as a draft. *)
Theorem draft_without_title_refused (ct : string) (c : Content) (w : World) :
  Routes.missing (title c) = true ->
  Routes.missing (arabic_text c) = true ->
  analyze_draft ct (Some c) w
  = (w, Normal (Routes.mkResponse 400
                  (Routes.BError (if Routes.valid_type ct
                                  then "Content is required for analysis"
                                  else "Invalid content type")))).
Proof.
  intros Ht Ha. unfold Routes.analyze_draft. rewrite Ht, Ha.
  now destruct (Routes.valid_type ct).
Qed.

End Remote.

Lemma draft_without_title_refused_witness :
  Routes.analyze_draft MoreExamples.net_up None "" "answer"
    (Some MoreExamples.an_answer) Examples.w_empty
  = (Examples.w_empty,
     Normal (Routes.mkResponse 400
               (Routes.BError "Content is required for analysis"))).
Proof.
  apply (draft_without_title_refused MoreExamples.net_up None "" "answer"
           MoreExamples.an_answer Examples.w_empty); reflexivity.
Defined.


Section Polling.
Variable net : Network.
Variable HF_API_URL : option string.
Variable HF_TOKEN : string.

Local Abbreviation processContent :=
  (Gemma3Service.processContent net HF_API_URL HF_TOKEN).

(** X22.  Polling after a run reports the outcome of the run: whichever row
    of the key the statement of the polling route takes as the latest, the
    answer is 'completed' with the analysis that [processContent] returned,
    or 'failed' with the message of the error it threw. *)
Theorem poll_reports_outcome (ct : string) (id : N) (w : World) (r : JobRow) :
  Routes.valid_type ct = true ->
  Poll.latest (jobs (fst (processContent ct id w))) ct id r ->
  Poll.get_analysis ct true (Some r)
  = match snd (processContent ct id w) with
    | Normal a => (200, Poll.PCompleted a)
    | Throw e => (200, Poll.PFailed (Some (err_message e)))
    end.
Proof.
  intros Hvalid [Hin [Hk _]].
  destruct (JobProps.processContent_rows net HF_API_URL HF_TOKEN ct id w)
    as [Hrows _].
  rewrite Hrows in Hin. unfold rewrite_rows in Hin.
  apply List.in_map_iff in Hin. destruct Hin as [r0 [<- _]].
  destruct (same_key ct id r0) eqn:Hk0; [ | congruence ].
  unfold Poll.get_analysis. rewrite Hvalid. cbn [negb].
  now destruct (snd (processContent ct id w)).
Qed.
End Polling.

Lemma poll_reports_outcome_witness :
  Poll.get_analysis "dua" true
    (Some (set_failed "Content not found" 5
             (set_processing 5 Examples.pending_row)))
  = (200, Poll.PFailed (Some "Content not found")).
Proof.
  apply (poll_reports_outcome Examples.net_down None "" "dua" 1
           Examples.w_pending).
  - reflexivity.
  - split; [ now left | ]. split; [ reflexivity | ].
    intros r' [<- | []] _. apply N.le_refl.
Defined.

End RouteMore.

(** ** The response parsers, continued *)

Module ParserMore.
Import JS Analysis Statements MoreStatements.

Lemma free_of_cons (b : N) (c : ascii) (s : string) :
  free_of b (String c s) -> (code c =? b)%N = false /\ free_of b s.
Proof.
  unfold free_of. cbn [count_char].
  destruct (code c =? b)%N; [ discriminate | ]. now split.
Qed.

Lemma from_first_skip (pre s : string) :
  free_of 123 pre -> from_first 123 (pre ++ s) = from_first 123 s.
Proof.
  induction pre as [ | c pre IH]; intros H; [ reflexivity | ].
  apply free_of_cons in H. destruct H as [Hc Hpre].
  cbn [append from_first]. rewrite Hc. now apply IH.
Qed.

Lemma upto_last_none (post : string) :
  free_of 125 post -> upto_last 125 post = None.
Proof.
  induction post as [ | c post IH]; intros H; [ reflexivity | ].
  apply free_of_cons in H. destruct H as [Hc Hpost].
  cbn [upto_last]. now rewrite (IH Hpost), Hc.
Qed.

Lemma upto_last_tail (body post : string) :
  free_of 125 post ->
  upto_last 125 (body ++ String "}" post) = Some (body ++ "}").
Proof.
  intros Hpost. induction body as [ | c body IH].
  - cbn. now rewrite (upto_last_none post Hpost).
  - cbn [append upto_last]. now rewrite IH.
Qed.

Lemma greedy_match_between (pre body post : string) :
  free_of 123 pre -> free_of 125 post ->
  greedy_match (pre ++ "{" ++ body ++ "}" ++ post) = Some ("{" ++ body ++ "}").
Proof.
  intros Hpre Hpost. unfold greedy_match.
  change (pre ++ "{" ++ body ++ "}" ++ post)
    with (pre ++ String "{" (body ++ String "}" post)).
  rewrite (from_first_skip pre _ Hpre). cbn [from_first].
  change (code "{" =? 123)%N with true. cbv iota.
  now rewrite (upto_last_tail body post Hpost).
Qed.

(** X23.  Text around the JSON does not matter: when the response is a
    brace-delimited text preceded by a text without an opening brace and
    followed by a text without a closing brace, both parsers decode exactly
    the brace-delimited text, and return what its decoding gives. *)
Theorem json_between_prose (pre body post : string) (r : AnalysisRecord) :
  free_of 123 pre ->
  free_of 125 post ->
  AIService.decode ("{" ++ body ++ "}") = Normal r ->
  greedy_match (pre ++ "{" ++ body ++ "}" ++ post) = Some ("{" ++ body ++ "}") /\
  Gemma3Service.parseAIResponse (pre ++ "{" ++ body ++ "}" ++ post) = Normal r /\
  AIService.parseAIResponse (JStr (pre ++ "{" ++ body ++ "}" ++ post))
  = Normal r.
Proof.
  intros Hpre Hpost Hdec.
  pose proof (greedy_match_between pre body post Hpre Hpost) as Hg.
  split; [ exact Hg | split ].
  - unfold Gemma3Service.parseAIResponse, Gemma3Service.parse_body.
    rewrite Hg. unfold AIService.decode in Hdec. rewrite Hdec. reflexivity.
  - unfold AIService.parseAIResponse.
    rewrite ParserProps.extract_text_string. cbn [bind AIService.as_text].
    rewrite Hg, Hdec. reflexivity.
Qed.

Lemma json_between_prose_witness :
  exists r,
    Gemma3Service.parseAIResponse
      (MoreExamples.fenced_prefix ++ "{" ++ MoreExamples.fenced_body ++ "}"
         ++ MoreExamples.fenced_suffix) = Normal r /\
    AIService.parseAIResponse
      (JStr (MoreExamples.fenced_prefix ++ "{" ++ MoreExamples.fenced_body
               ++ "}" ++ MoreExamples.fenced_suffix)) = Normal r.
Proof.
  pose (r := match AIService.decode ("{" ++ MoreExamples.fenced_body ++ "}") with
             | Normal r => r
             | Throw _ => AIService.placeholder
             end).
  exists r.
  apply (json_between_prose MoreExamples.fenced_prefix MoreExamples.fenced_body
           MoreExamples.fenced_suffix r);
    vm_compute; reflexivity.
Defined.

Lemma bottom_obj_tail (f : JSON.frame) (st : list JSON.frame) :
  bottom_obj (f :: st) = true ->
  (st = [] /\ exists mem p, f = JSON.FObj mem p) \/
  (bottom_obj st = true /\ forall f', bottom_obj (f' :: st) = true).
Proof.
  destruct st as [ | g st].
  - destruct f; cbn; [ discriminate | ]. intros _. left. eauto.
  - cbn [bottom_obj]. intros H. right. split; [ exact H | ].
    intros f'. exact H.
Qed.

Lemma bottom_obj_cons (f : JSON.frame) (st : list JSON.frame) :
  bottom_obj st = true -> bottom_obj (f :: st) = true.
Proof. destruct st; [ discriminate | now cbn ]. Qed.

Lemma push_value_ok (v : JSValue) (stack stack' : list JSON.frame)
      (st' : JSON.pstate) :
  bottom_obj stack = true ->
  JSON.push_value v stack = Some (stack', st') ->
  object_state stack' st'.
Proof.
  intros Hb. destruct stack as [ | [items | mem [k | ]] st];
    cbn [JSON.push_value]; try discriminate.
  - intros [= <- <-]. cbn [object_state].
    destruct (bottom_obj_tail _ _ Hb) as [[_ [mem [p H]]] | [_ H]];
      [ discriminate | apply H ].
  - intros [= <- <-]. cbn [object_state].
    destruct (bottom_obj_tail _ _ Hb) as [[-> _] | [_ H]];
      [ reflexivity | apply H ].
Qed.

Lemma close_array_ok (stack stack' : list JSON.frame) (st' : JSON.pstate) :
  bottom_obj stack = true ->
  JSON.close_array stack = Some (stack', st') ->
  object_state stack' st'.
Proof.
  intros Hb. destruct stack as [ | [items | mem p] st];
    cbn [JSON.close_array]; try discriminate.
  destruct (bottom_obj_tail _ _ Hb) as [[_ [mem [p H]]] | [Hst _]];
    [ discriminate | ].
  now apply push_value_ok.
Qed.

Lemma close_object_ok (stack stack' : list JSON.frame) (st' : JSON.pstate) :
  bottom_obj stack = true ->
  JSON.close_object stack = Some (stack', st') ->
  object_state stack' st'.
Proof.
  intros Hb. destruct stack as [ | [items | mem [k | ]] st];
    cbn [JSON.close_object]; try discriminate.
  destruct (bottom_obj_tail _ _ Hb) as [[-> _] | [Hst _]].
  - cbn. intros [= <- <-]. cbn. split; [ reflexivity | eauto ].
  - now apply push_value_ok.
Qed.

Lemma set_key_ok (k : string) (stack stack' : list JSON.frame)
      (st' : JSON.pstate) :
  bottom_obj stack = true ->
  JSON.set_key k stack = Some (stack', st') ->
  object_state stack' st'.
Proof.
  intros Hb. destruct stack as [ | [items | mem [k0 | ]] st];
    cbn [JSON.set_key]; try discriminate.
  intros [= <- <-]. cbn [object_state].
  destruct (bottom_obj_tail _ _ Hb) as [[-> _] | [_ H]];
    [ reflexivity | apply H ].
Qed.

Lemma start_value_ok (t : JSON.token) (stack stack' : list JSON.frame)
      (st' : JSON.pstate) :
  bottom_obj stack = true ->
  JSON.start_value t stack = Some (stack', st') ->
  object_state stack' st'.
Proof.
  intros Hb. destruct t; cbn [JSON.start_value]; try discriminate;
    try (now apply push_value_ok);
    intros [= <- <-]; cbn [object_state]; now apply bottom_obj_cons.
Qed.

Lemma parse_step_ok (stack stack' : list JSON.frame) (st st' : JSON.pstate)
      (t : JSON.token) :
  object_state stack st ->
  JSON.parse_step stack st t = Some (stack', st') ->
  object_state stack' st'.
Proof.
  intros Hs. destruct st; cbn [JSON.parse_step object_state] in *;
    try discriminate.
  - now apply start_value_ok.
  - destruct t; try (now apply start_value_ok). now apply close_array_ok.
  - destruct t; try discriminate;
      [ now apply close_object_ok | now apply set_key_ok ].
  - destruct t; try discriminate. now apply set_key_ok.
  - destruct t; try discriminate. now intros [= <- <-].
  - destruct t; try discriminate;
      [ now apply close_object_ok | now apply close_array_ok | ].
    destruct stack as [ | [items | mem [k | ]] rest]; try discriminate;
      now intros [= <- <-].
Qed.

Lemma parse_tokens_ok (ts : list JSON.token) (stack : list JSON.frame)
      (st : JSON.pstate) (v : JSValue) :
  object_state stack st ->
  JSON.parse_tokens stack st ts = Some v ->
  exists members, v = JObj members.
Proof.
  revert stack st; induction ts as [ | t ts IH]; intros stack st Hs.
  - cbn. destruct st; try discriminate. intros [= <-]. now destruct Hs.
  - cbn [JSON.parse_tokens].
    destruct (JSON.parse_step stack st t) as [[stack' st'] | ] eqn:Hstep;
      [ | discriminate ].
    apply IH. now apply (parse_step_ok stack stack' st st' t).
Qed.

Lemma from_first_head (b : N) (s t : string) :
  from_first b s = Some t -> exists c r, t = String c r /\ code c = b.
Proof.
  induction s as [ | c s IH]; [ discriminate | ].
  cbn [from_first]. destruct (code c =? b)%N eqn:E.
  - intros [= <-]. exists c, s. split; [ reflexivity | now apply N.eqb_eq ].
  - exact IH.
Qed.

Lemma greedy_match_head (s m : string) :
  greedy_match s = Some m -> exists c r, m = String c r /\ code c = 123%N.
Proof.
  unfold greedy_match.
  destruct (from_first 123 s) as [[ | c r] | ] eqn:Hf; try discriminate.
  destruct (from_first_head _ _ _ Hf) as [c' [r' [[= <- <-] Hc]]].
  destruct (upto_last 125 r) as [p | ]; [ | discriminate ].
  intros [= <-]. eauto.
Qed.

Lemma parse_braced (c : ascii) (r : string) (v : JSValue) :
  code c = 123%N ->
  JSON.JSON_parse (String c r) = Some v ->
  exists members, v = JObj members.
Proof.
  intros Hc. unfold JSON.JSON_parse. cbn [JSON.lex].
  unfold JSON.lex_step. rewrite Hc.
  change (JSON.idle_step 123) with (Some (JSON.LIdle, [JSON.TLBrace])).
  cbv beta iota zeta.
  destruct (JSON.lex JSON.LIdle r) as [ts | ]; cbv beta iota;
    [ | discriminate ].
  cbn [List.app JSON.parse_tokens JSON.parse_step JSON.start_value].
  now apply parse_tokens_ok.
Qed.

(** X24.  What [JSON.parse] returns for the text between the braces is
    always an object; reading its members cannot throw, so neither the test
    for the three members nor the simple normalisation can fail. *)
Theorem decoded_response_is_object (s m : string) (v : JSValue) :
  greedy_match s = Some m ->
  JSON.JSON_parse m = Some v ->
  exists members,
    v = JObj members /\
    (exists b, has_working_format v = Normal b) /\
    (exists r, simple_record v = Normal r).
Proof.
  intros Hg Hp.
  destruct (greedy_match_head s m Hg) as [c [r [-> Hc]]].
  destruct (parse_braced c r v Hc Hp) as [members ->].
  exists members. split; [ reflexivity | ].
  split; eexists; reflexivity.
Qed.

Lemma decoded_response_is_object_witness :
  exists members,
    JSON.JSON_parse Examples.structured_example = Some (JObj members).
Proof.
  pose (v := match JSON.JSON_parse Examples.structured_example with
             | Some v => v
             | None => JNull
             end).
  destruct (decoded_response_is_object Examples.structured_example
              Examples.structured_example v) as [members [Hv _]].
  - vm_compute; reflexivity.
  - vm_compute; reflexivity.
  - exists members. rewrite <- Hv. vm_compute; reflexivity.
Defined.

Lemma count_char_app (b : N) (s t : string) :
  count_char b (s ++ t) = count_char b s + count_char b t.
Proof.
  induction s as [ | c s IH]; [ reflexivity | ].
  cbn [append count_char]. rewrite IH. lia.
Qed.

Lemma count_char_repeat (b : N) (c : ascii) (n : nat) :
  count_char b (repeat_string (String c "") n)
  = if (code c =? b)%N then n else 0.
Proof.
  induction n as [ | n IH]; cbn [repeat_string append count_char].
  - now destruct (code c =? b)%N.
  - rewrite IH. destruct (code c =? b)%N; lia.
Qed.

(** X26.  The repair balances by counting: in the text handed to the
    second decode there are at least as many closing as opening brackets,
    and at least as many closing as opening braces; a text that has no cut
    marker and misses no closer is handed on unchanged. *)
Theorem close_json_balances (partialJson : string) :
  count_char 91 (Gemma3Service.close_json partialJson)
  <= count_char 93 (Gemma3Service.close_json partialJson) /\
  count_char 123 (Gemma3Service.close_json partialJson)
  <= count_char 125 (Gemma3Service.close_json partialJson) /\
  (includes Gemma3Service.cut_marker partialJson = false ->
   count_char 91 partialJson <= count_char 93 partialJson ->
   count_char 123 partialJson <= count_char 125 partialJson ->
   Gemma3Service.close_json partialJson = partialJson).
Proof.
  unfold Gemma3Service.close_json.
  split; [ | split ].
  - match goal with
    | |- context [if ?b then _ else _] => generalize (if b then
          Gemma3Service.replace_cut partialJson else partialJson)
    end.
    intros t. rewrite !count_char_app, !count_char_repeat. cbn. lia.
  - match goal with
    | |- context [if ?b then _ else _] => generalize (if b then
          Gemma3Service.replace_cut partialJson else partialJson)
    end.
    intros t. rewrite !count_char_app, !count_char_repeat. cbn. lia.
  - intros Hm Hb Hc. rewrite Hm. cbn [andb].
    replace (count_char 91 partialJson - count_char 93 partialJson) with 0
      by lia.
    replace (count_char 123 partialJson - count_char 125 partialJson) with 0
      by lia.
    cbn [repeat_string].
    induction partialJson as [ | ch rest IH]; [ reflexivity | ].
    cbn [append]. f_equal.
    clear. induction rest as [ | ch rest IH]; [ reflexivity | ].
    cbn [append]. now f_equal.
Qed.

Lemma truthy_get_prop (v : JSValue) (k : string) :
  truthy v = true -> exists x, get_prop v k = Normal x.
Proof. destruct v; cbn; try discriminate; eauto. Qed.

Lemma map_correction_throws (x : JSValue) (e : JSError) :
  map_correction x = Throw e -> x = JNull.
Proof. destruct x; cbn; try discriminate. reflexivity. Qed.

Lemma mapM_throws {A B} (f : A -> Result B) (l : list A) (e : JSError) :
  mapM f l = Throw e -> exists x e', In x l /\ f x = Throw e'.
Proof.
  induction l as [ | a l IH]; [ discriminate | ].
  cbn [mapM]. destruct (f a) as [b | e0] eqn:Hfa; cbn [bind].
  - destruct (mapM f l) as [bs | e1]; cbn [bind]; [ discriminate | ].
    intros H. destruct (IH H) as [x [e' [Hin Hx]]].
    exists x, e'. split; [ now right | exact Hx ].
  - intros _. exists a, e0. split; [ now left | exact Hfa ].
Qed.

(** X25.  The structured normalisation throws for one kind of response
    only: a decoded object with the three members whose [corrections] is an
    array holding a [null]. *)
Theorem structured_throws_on_null_only
        (members : list (string * JSValue)) (e : JSError) :
  has_working_format (JObj members) = Normal true ->
  structured_record (JObj members) = Throw e ->
  exists items,
    get_prop (JObj members) "corrections" = Normal (JArr items) /\
    In JNull items.
Proof.
  unfold has_working_format, structured_record. cbn [get_prop bind].
  set (a := match lookup_last "analysis" members with
            | Some w => w | None => JUndefined end).
  set (c := match lookup_last "corrections" members with
            | Some w => w | None => JUndefined end).
  set (sm := match lookup_last "summary" members with
             | Some w => w | None => JUndefined end).
  intros [= Hw].
  apply Bool.andb_true_iff in Hw. destruct Hw as [_ Hsm].
  destruct (truthy_get_prop sm "english" Hsm) as [en ->].
  destruct (truthy_get_prop sm "bangla" Hsm) as [bn ->].
  cbn [bind].
  destruct c as [ | | b | m0 e0 | s0 | items | ms]; cbn [bind];
    try discriminate.
  destruct (mapM map_correction items) as [cs | e1] eqn:Hm; cbn [bind];
    [ discriminate | ].
  intros _. exists items. split; [ reflexivity | ].
  destruct (mapM_throws _ _ _ Hm) as [x [e' [Hin Hx]]].
  now rewrite <- (map_correction_throws x e' Hx).
Qed.

Lemma structured_throws_on_null_only_witness :
  exists items,
    get_prop (JObj [ ("analysis", JObj []); ("corrections", JArr [JNull]);
                     ("summary", JObj []) ]) "corrections"
    = Normal (JArr items) /\
    In JNull items.
Proof.
  apply (structured_throws_on_null_only
           [ ("analysis", JObj []); ("corrections", JArr [JNull]);
             ("summary", JObj []) ]
           (TypeError "Cannot read properties of null (reading 'field')")).
  - reflexivity.
  - reflexivity.
Defined.

End ParserMore.
